(** * snafed: the spectrogram viewer component ([src/App.tsx])

    A shallow embedding of the [App] React component: its state, its two
    caches, the canvas it paints, and the promise-driven rendering
    pipeline, run on an explicit event loop (a FIFO queue of promise
    reaction jobs and a pool of pending platform callbacks).

    What [App.tsx] imports from files that are not part of the sources
    ([./config], [./canvas/...]) and what the browser provides
    ([decodeAudioData], [Number]) is gathered in the record [Env]. *)

From Stdlib Require Import ZArith NArith Lia Bool List.
From Stdlib Require Import Floats.SpecFloat.
From stdpp Require Import base option list gmap strings.

Open Scope Z_scope.

(** ** JavaScript numbers

    A JS number is an IEEE 754 binary64 value: a [spec_float] that is
    valid for precision 53 and maximal exponent 1024. *)

Definition prec : Z := 53.
Definition emax : Z := 1024.

Record JsNumber := {
  sf :> spec_float;
  sf_valid : valid_binary prec emax sf = true
}.

Definition jsNaN : JsNumber := {| sf := S754_nan; sf_valid := eq_refl |}.
Definition jsZero : JsNumber := {| sf := S754_zero false; sf_valid := eq_refl |}.
Definition jsOne : JsNumber :=
  {| sf := S754_finite false 4503599627370496 (-52); sf_valid := eq_refl |}.

Definition isNaN (x : JsNumber) : bool :=
  match sf x with S754_nan => true | _ => false end.

Definition isNegativeZero (x : JsNumber) : bool :=
  match sf x with S754_zero true => true | _ => false end.

(** [Number.isFinite] *)
Definition isFinite (x : JsNumber) : bool :=
  match sf x with
  | S754_zero _ | S754_finite _ _ _ => true
  | S754_infinity _ | S754_nan => false
  end.

(** [Math.min] and [Math.max] on two arguments: NaN if either is NaN,
    and -0 counts as smaller than +0. *)
Definition mathMin (a b : JsNumber) : JsNumber :=
  if isNaN a || isNaN b then jsNaN
  else if SFltb a b then a
  else if SFltb b a then b
  else if isNegativeZero a then a else b.

Definition mathMax (a b : JsNumber) : JsNumber :=
  if isNaN a || isNaN b then jsNaN
  else if SFltb a b then b
  else if SFltb b a then a
  else if isNegativeZero a then b else a.

(** [0 <= x <= 1] on JS numbers. *)
Definition inUnitInterval (x : JsNumber) : bool :=
  SFleb jsZero x && SFleb x jsOne.

(** ** Errors a callback can raise *)

Inductive JsError :=
| TypeError        (* a property read on [undefined], a non-Blob passed to FileReader *)
| IndexSizeError   (* [getImageData] with a zero width or height *)
| EncodingError.   (* [decodeAudioData] on bytes that are no audio *)

(** ** Pixel surfaces *)

Definition Pixel := N.
Definition transparentBlack : Pixel := 0%N.

(** [f i; f (i+1); ...], [n] entries. *)
Fixpoint tabulateFrom {A} (f : N → A) (i : N) (n : nat) : list A :=
  match n with
  | O => []
  | S n' => f i :: tabulateFrom f (N.succ i) n'
  end.

Definition tabulate {A} (n : N) (f : N → A) : list A :=
  tabulateFrom f 0%N (N.to_nat n).

Definition blank (n : N) : list Pixel := tabulate n (λ _, transparentBlack).
#[global] Arguments blank n : simpl never.

Module ImageData.
Record t := { width : N; height : N; data : list Pixel }.

Definition pixelAt (img : t) (x y : N) : Pixel :=
  nth (N.to_nat (y * width img + x)) (data img) transparentBlack.

(** Number of pixels held. *)
Definition area (img : t) : nat := length (data img).
End ImageData.

Inductive CssPosition := PositionStatic | PositionAbsolute.

Module Canvas.
Record t := {
  width : N;
  height : N;
  bitmap : list Pixel;               (* row-major, [width * height] pixels *)
  stylePosition : CssPosition;
  styleHeight : option Z             (* in px *)
}.

(** A freshly created [<canvas>] is 300 x 150 and transparent. *)
Definition fresh : t :=
  {| width := 300; height := 150; bitmap := blank (300 * 150);
     stylePosition := PositionStatic; styleHeight := None |}.

(** Assigning [canvas.width] or [canvas.height] resets the bitmap to
    transparent black at the new size. *)
Definition setWidth (n : N) (c : t) : t :=
  {| width := n; height := height c; bitmap := blank (n * height c);
     stylePosition := stylePosition c; styleHeight := styleHeight c |}.

Definition setHeight (n : N) (c : t) : t :=
  {| width := width c; height := n; bitmap := blank (width c * n);
     stylePosition := stylePosition c; styleHeight := styleHeight c |}.

Definition setBitmap (b : list Pixel) (c : t) : t :=
  {| width := width c; height := height c; bitmap := b;
     stylePosition := stylePosition c; styleHeight := styleHeight c |}.

Definition setStylePosition (p : CssPosition) (c : t) : t :=
  {| width := width c; height := height c; bitmap := bitmap c;
     stylePosition := p; styleHeight := styleHeight c |}.

Definition setStyleHeight (h : Z) (c : t) : t :=
  {| width := width c; height := height c; bitmap := bitmap c;
     stylePosition := stylePosition c; styleHeight := Some h |}.

Definition pixelAt (c : t) (x y : N) : Pixel :=
  if ((x <? width c) && (y <? height c))%N
  then nth (N.to_nat (y * width c + x)) (bitmap c) transparentBlack
  else transparentBlack.

(** [ctx.getImageData(0, 0, sw, sh)]: a copy of the rectangle, pixels
    outside the bitmap read as transparent black. The call raises
    [IndexSizeError] when [sw] or [sh] is zero (HTML Standard, 2D
    context, pixel manipulation). *)
Definition getImageData (sw sh : N) (c : t) : JsError + ImageData.t :=
  if ((sw =? 0) || (sh =? 0))%N then inl IndexSizeError
  else inr {| ImageData.width := sw; ImageData.height := sh;
              ImageData.data :=
                tabulate (sw * sh) (λ i, pixelAt c (i mod sw) (i / sw))%N |}.

(** [ctx.putImageData(img, 0, 0)]: the pixels of [img] are copied over
    the part of the bitmap they cover. *)
Definition putImageData (img : ImageData.t) (c : t) : t :=
  setBitmap
    (tabulate (width c * height c)
       (λ i, let x := (i mod width c)%N in
             let y := (i / width c)%N in
             if ((x <? ImageData.width img) && (y <? ImageData.height img))%N
             then ImageData.pixelAt img x y
             else pixelAt c x y))
    c.
End Canvas.

(** The two drawing contexts the component holds. *)
Inductive Surface :=
| SpectrogramSurface   (* the context of the canvas behind [spectrogramRef] *)
| InternalSurface.     (* [internalCanvasCtx] *)

(** ** Files *)

Record AudioFile := { name : string; content : list Byte.byte }.

(** ** Collaborators outside [App.tsx]

    Types and functions [App.tsx] imports from files that are not among
    the sources, and the platform functions it calls. The renderers are
    taken as what they do to the drawing surface handed to them in the
    [RenderConfig]; [renderMarkings] gets no other reference. *)

Record RenderConfigOf (AudioBuffer Config : Type) := {
  fileIndex : Z;
  ctx : Surface;
  audioBuffer : AudioBuffer;
  snatcitConfig : Config
}.
Arguments fileIndex {_ _} _.
Arguments ctx {_ _} _.
Arguments audioBuffer {_ _} _.
Arguments snatcitConfig {_ _} _.

(** Modelled from the spec: [renderSpectrogram] of
    [./canvas/renderSpectrogramAndMarkings], which is not among the
    sources. The spec (4.3, 5) has it as a function over its inputs and
    the drawing surface it is handed; it is given as its effect on the
    surface [rc.ctx]. *)
Definition SpectrogramRenderer (AudioBuffer Config : Type) : Type :=
  RenderConfigOf AudioBuffer Config → Canvas.t → Canvas.t.

(** Modelled from the spec: [renderMarkings] of
    [./canvas/renderSpectrogramAndMarkings], which is not among the
    sources. The spec (4.4, 5) has it draw each mark onto the surface it
    is handed, as a function over its inputs and that surface; it is
    given as its effect on the surface [rc.ctx], made before it
    returns. *)
Definition MarkingsRenderer (AudioBuffer Config LabeledFieldValue : Type) : Type :=
  RenderConfigOf AudioBuffer Config → list LabeledFieldValue
  → Canvas.t → Canvas.t.

Record Env := {
  Config : Type;                       (* [AppState.config], from [./state] *)
  AudioBuffer : Type;                  (* Web Audio's decoded buffer *)
  SpectrumFftData : Type;              (* from [./canvas/calculationUtils] *)
  LabeledFieldValue : Type;            (* from [./config] *)
  spectrumBins : SpectrumFftData → N;  (* the field [spectrumBins] *)
  (** [AudioContext.decodeAudioData]: [None] when the bytes are not a
      supported encoding. *)
  decodeAudioData : list Byte.byte → option AudioBuffer;
  (** [getSpectrumFftData({audioBuffer, snatcitConfig})] *)
  getSpectrumFftData : AudioBuffer → Config → SpectrumFftData;
  (** [getAllFieldValuesForEntry(config, name).computedValues] *)
  computedValuesOf : Config → string → list LabeledFieldValue;
  renderSpectrogram : SpectrogramRenderer AudioBuffer Config;
  renderMarkings : MarkingsRenderer AudioBuffer Config LabeledFieldValue;
  (** [Number(s)] *)
  toNumber : string → JsNumber
}.

Existing Class Env.

Section App.
Context {env : Env}.

Definition RenderConfig : Type := RenderConfigOf (AudioBuffer env) (Config env).

(** [interface AudioData] (lines 307-310); [adAudioBuffer] is its field
    [audioBuffer], a name [RenderConfig] already has. *)
Record AudioData := {
  adAudioBuffer : AudioBuffer env;
  spectrumFftData : SpectrumFftData env
}.

Record AppProps := { audioFiles : list AudioFile; initialConfig : Config env }.

Record AppState := {
  volume : JsNumber;
  isPlaying : bool;
  selectedIndex : Z;
  config : Config env
}.

Record Window := { innerWidth : N; innerHeight : Z }.

(** Whether React has the component mounted; [spectrogramRef.current] is
    the canvas exactly while it is, and [null] otherwise. *)
Inductive Lifecycle := Constructed | Mounted | Unmounted.

(** *** Promise reactions, defunctionalised

    Every promise of [App.tsx] gets exactly one [then] (or is dropped),
    so a promise is represented by the callback waiting for it. *)

(** What waits for a [Promise<ImageData>]: the callback of
    [renderSpectrogramUsingCache] (lines 191-195), made for [request]. *)
Inductive ImageK := KPut (request : nat).

(** What waits for the [Promise<void>] of [useSelectedAudioFileToRender]. *)
Inductive VoidK :=
| KRestyle     (* the callback of [resizeAndRerenderCanvas], lines 267-275 *)
| KDropped.    (* the promise is dropped (the [setState] callbacks) *)

(** What waits for a [Promise<AudioData>]. *)
Inductive AudioK :=
| KRenderImage (index : Z) (k : ImageK)
    (* the callback of [getSpectrogramImageData], lines 232-254 *)
| KRenderers (request : nat) (computedValues : list (LabeledFieldValue env)) (k : VoidK).
    (* the callback of [useSelectedAudioFileToRender], lines 294-303 *)

(** A promise reaction job (microtask). *)
Inductive Job :=
| JAudio (data : AudioData) (k : AudioK)
| JImage (imgData : ImageData.t) (k : ImageK)
| JRestyle.

(** A pending platform callback (macrotask). *)
Inductive Task :=
| TLoad (index : Z) (file : AudioFile) (k : AudioK)
    (* the FileReader's "load" listener, lines 205-220 *)
| TDecoded (index : Z) (buffer : AudioBuffer env) (k : AudioK).
    (* the success callback of [decodeAudioData], lines 207-219 *)

Inductive Outcome := Fulfilled | Rejected (e : JsError).

(** What an observer of a run sees, in order. [request] numbers the
    calls of [useSelectedAudioFileToRender]. *)
Inductive Observation :=
| ObsReadFile (index : Z)              (* [fr.readAsArrayBuffer] *)
| ObsDecode (index : Z)                (* [decodeAudioData] called *)
| ObsAnalyze (index : Z)               (* [getSpectrumFftData] called *)
| ObsRenderSpectrogram (index : Z)     (* [renderSpectrogram] called *)
| ObsPutImageData (request : nat)      (* pixels written to the visible canvas *)
| ObsRenderMarkings (request : nat) (index : Z)   (* [renderMarkings] called *)
| ObsSettled (request : nat) (o : Outcome)        (* the request's promise settles *)
| ObsUnhandledRejection (e : JsError)
| ObsUncaught (e : JsError).

Record World := {
  props : AppProps;
  state : AppState;
  lifecycle : Lifecycle;
  spectrogramCanvas : Canvas.t;        (* the canvas behind [spectrogramRef] *)
  internalCanvas : Canvas.t;           (* [internalCanvasCtx.canvas] *)
  audioDataCache : gmap Z AudioData;
  spectrogramImageDataCache : gmap Z ImageData.t;
  window : Window;
  canvasTop : Z;                       (* [canvas.getBoundingClientRect().top] *)
  microtasks : list Job;
  macrotasks : list Task;
  nextRequest : nat;
  trace : list Observation
}.

Definition set_state (f : AppState → AppState) (w : World) : World :=
  {| props := props w; state := f (state w); lifecycle := lifecycle w;
     spectrogramCanvas := spectrogramCanvas w; internalCanvas := internalCanvas w;
     audioDataCache := audioDataCache w;
     spectrogramImageDataCache := spectrogramImageDataCache w;
     window := window w; canvasTop := canvasTop w;
     microtasks := microtasks w; macrotasks := macrotasks w;
     nextRequest := nextRequest w; trace := trace w |}.

Definition set_lifecycle (l : Lifecycle) (w : World) : World :=
  {| props := props w; state := state w; lifecycle := l;
     spectrogramCanvas := spectrogramCanvas w; internalCanvas := internalCanvas w;
     audioDataCache := audioDataCache w;
     spectrogramImageDataCache := spectrogramImageDataCache w;
     window := window w; canvasTop := canvasTop w;
     microtasks := microtasks w; macrotasks := macrotasks w;
     nextRequest := nextRequest w; trace := trace w |}.

Definition set_spectrogramCanvas (f : Canvas.t → Canvas.t) (w : World) : World :=
  {| props := props w; state := state w; lifecycle := lifecycle w;
     spectrogramCanvas := f (spectrogramCanvas w); internalCanvas := internalCanvas w;
     audioDataCache := audioDataCache w;
     spectrogramImageDataCache := spectrogramImageDataCache w;
     window := window w; canvasTop := canvasTop w;
     microtasks := microtasks w; macrotasks := macrotasks w;
     nextRequest := nextRequest w; trace := trace w |}.

Definition set_internalCanvas (f : Canvas.t → Canvas.t) (w : World) : World :=
  {| props := props w; state := state w; lifecycle := lifecycle w;
     spectrogramCanvas := spectrogramCanvas w; internalCanvas := f (internalCanvas w);
     audioDataCache := audioDataCache w;
     spectrogramImageDataCache := spectrogramImageDataCache w;
     window := window w; canvasTop := canvasTop w;
     microtasks := microtasks w; macrotasks := macrotasks w;
     nextRequest := nextRequest w; trace := trace w |}.

Definition set_audioDataCache (f : gmap Z AudioData → gmap Z AudioData) (w : World) : World :=
  {| props := props w; state := state w; lifecycle := lifecycle w;
     spectrogramCanvas := spectrogramCanvas w; internalCanvas := internalCanvas w;
     audioDataCache := f (audioDataCache w);
     spectrogramImageDataCache := spectrogramImageDataCache w;
     window := window w; canvasTop := canvasTop w;
     microtasks := microtasks w; macrotasks := macrotasks w;
     nextRequest := nextRequest w; trace := trace w |}.

Definition set_spectrogramImageDataCache
    (f : gmap Z ImageData.t → gmap Z ImageData.t) (w : World) : World :=
  {| props := props w; state := state w; lifecycle := lifecycle w;
     spectrogramCanvas := spectrogramCanvas w; internalCanvas := internalCanvas w;
     audioDataCache := audioDataCache w;
     spectrogramImageDataCache := f (spectrogramImageDataCache w);
     window := window w; canvasTop := canvasTop w;
     microtasks := microtasks w; macrotasks := macrotasks w;
     nextRequest := nextRequest w; trace := trace w |}.

Definition set_window (win : Window) (w : World) : World :=
  {| props := props w; state := state w; lifecycle := lifecycle w;
     spectrogramCanvas := spectrogramCanvas w; internalCanvas := internalCanvas w;
     audioDataCache := audioDataCache w;
     spectrogramImageDataCache := spectrogramImageDataCache w;
     window := win; canvasTop := canvasTop w;
     microtasks := microtasks w; macrotasks := macrotasks w;
     nextRequest := nextRequest w; trace := trace w |}.

Definition set_microtasks (js : list Job) (w : World) : World :=
  {| props := props w; state := state w; lifecycle := lifecycle w;
     spectrogramCanvas := spectrogramCanvas w; internalCanvas := internalCanvas w;
     audioDataCache := audioDataCache w;
     spectrogramImageDataCache := spectrogramImageDataCache w;
     window := window w; canvasTop := canvasTop w;
     microtasks := js; macrotasks := macrotasks w;
     nextRequest := nextRequest w; trace := trace w |}.

Definition set_macrotasks (ts : list Task) (w : World) : World :=
  {| props := props w; state := state w; lifecycle := lifecycle w;
     spectrogramCanvas := spectrogramCanvas w; internalCanvas := internalCanvas w;
     audioDataCache := audioDataCache w;
     spectrogramImageDataCache := spectrogramImageDataCache w;
     window := window w; canvasTop := canvasTop w;
     microtasks := microtasks w; macrotasks := ts;
     nextRequest := nextRequest w; trace := trace w |}.

Definition set_nextRequest (n : nat) (w : World) : World :=
  {| props := props w; state := state w; lifecycle := lifecycle w;
     spectrogramCanvas := spectrogramCanvas w; internalCanvas := internalCanvas w;
     audioDataCache := audioDataCache w;
     spectrogramImageDataCache := spectrogramImageDataCache w;
     window := window w; canvasTop := canvasTop w;
     microtasks := microtasks w; macrotasks := macrotasks w;
     nextRequest := n; trace := trace w |}.

(** Appends to the trace. *)
Definition observe (o : Observation) (w : World) : World :=
  {| props := props w; state := state w; lifecycle := lifecycle w;
     spectrogramCanvas := spectrogramCanvas w; internalCanvas := internalCanvas w;
     audioDataCache := audioDataCache w;
     spectrogramImageDataCache := spectrogramImageDataCache w;
     window := window w; canvasTop := canvasTop w;
     microtasks := microtasks w; macrotasks := macrotasks w;
     nextRequest := nextRequest w; trace := trace w ++ [o] |}.

Definition queueMicrotask (j : Job) (w : World) : World :=
  set_microtasks (microtasks w ++ [j]) w.

Definition queueMacrotask (t : Task) (w : World) : World :=
  set_macrotasks (macrotasks w ++ [t]) w.

(** ** The component *)

(** [props.audioFiles[index]]: [undefined] outside the array. *)
Definition fileAt (p : AppProps) (index : Z) : option AudioFile :=
  if index <? 0 then None else audioFiles p !! Z.to_nat index.

(** A promise that is rejected passes the rejection down its chain of
    [then]s, none of which has a rejection handler; the last promise of
    the chain is dropped, so the rejection ends unhandled. *)
Definition rejectImage (k : ImageK) (e : JsError) (w : World) : World :=
  observe (ObsUnhandledRejection e) w.

Definition rejectAudio (k : AudioK) (e : JsError) (w : World) : World :=
  match k with
  | KRenderImage _ kp => rejectImage kp e w
  | KRenderers request _ _ =>
      observe (ObsUnhandledRejection e) (observe (ObsSettled request (Rejected e)) w)
  end.

(** The promise of [useSelectedAudioFileToRender] is fulfilled. *)
Definition fulfilVoid (request : nat) (k : VoidK) (w : World) : World :=
  let w := observe (ObsSettled request Fulfilled) w in
  match k with
  | KRestyle => queueMicrotask JRestyle w
  | KDropped => w
  end.

(** [getAudioData(index).then(k)] (lines 198-223). On a miss the promise
    executor starts a FileReader; [readAsArrayBuffer(undefined)] throws
    inside the executor, which rejects the promise. *)
Definition getAudioData (index : Z) (k : AudioK) (w : World) : World :=
  match audioDataCache w !! index with
  | Some cachedData => queueMicrotask (JAudio cachedData k) w
  | None =>
      match fileAt (props w) index with
      | Some file => queueMacrotask (TLoad index file k) (observe (ObsReadFile index) w)
      | None => rejectAudio k TypeError w
      end
  end.

(** The "load" listener (lines 205-220): [decodeAudioData] is called
    with a success callback only. When decoding fails nothing calls
    [resolve], and the promise [decodeAudioData] itself returns is
    rejected with nobody listening. *)
Definition fileReaderOnLoad (index : Z) (file : AudioFile) (k : AudioK) (w : World) : World :=
  let w := observe (ObsDecode index) w in
  match decodeAudioData env (content file) with
  | Some buffer => queueMacrotask (TDecoded index buffer k) w
  | None => observe (ObsUnhandledRejection EncodingError) w
  end.

(** The success callback of [decodeAudioData] (lines 207-219). *)
Definition decodeSuccess (index : Z) (buffer : AudioBuffer env) (k : AudioK) (w : World) : World :=
  let spectrumData := getSpectrumFftData env buffer (config (state w)) in
  let data := {| adAudioBuffer := buffer; spectrumFftData := spectrumData |} in
  let w := observe (ObsAnalyze index) w in
  let w := set_audioDataCache <[index := data]> w in
  queueMicrotask (JAudio data k) w.

(** [getSpectrogramImageData(index).then(k)] (lines 225-256), the part
    that runs at once. *)
Definition getSpectrogramImageData (index : Z) (k : ImageK) (w : World) : World :=
  match spectrogramImageDataCache w !! index with
  | Some cachedData => queueMicrotask (JImage cachedData k) w
  | None => getAudioData index (KRenderImage index k) w
  end.

(** The callback of [getSpectrogramImageData] (lines 232-254). *)
Definition renderImage (index : Z) (k : ImageK) (data : AudioData) (w : World) : World :=
  let canvasWidth := innerWidth (window w) in
  let canvasHeight := spectrumBins env (spectrumFftData data) in
  let w := set_internalCanvas (Canvas.setWidth canvasWidth) w in
  let w := set_internalCanvas (Canvas.setHeight canvasHeight) w in
  let rc := {| fileIndex := index; ctx := InternalSurface;
               audioBuffer := adAudioBuffer data;
               snatcitConfig := config (state w) |} in
  let w := observe (ObsRenderSpectrogram index) w in
  let w := set_internalCanvas (renderSpectrogram env rc) w in
  match Canvas.getImageData canvasWidth canvasHeight (internalCanvas w) with
  | inr imgData =>
      let w := set_spectrogramImageDataCache <[index := imgData]> w in
      queueMicrotask (JImage imgData k) w
  | inl e => rejectImage k e w
  end.

(** The callback of [renderSpectrogramUsingCache] (lines 191-195). *)
Definition putSpectrogram (request : nat) (imgData : ImageData.t) (w : World) : World :=
  let w := set_spectrogramCanvas (Canvas.setWidth (ImageData.width imgData)) w in
  let w := set_spectrogramCanvas (Canvas.setHeight (ImageData.height imgData)) w in
  let w := set_spectrogramCanvas (Canvas.putImageData imgData) w in
  observe (ObsPutImageData request) w.

(** [renderSpectrogramUsingCache] (lines 185-196), called for [request]. *)
Definition renderSpectrogramUsingCache (request : nat) (renderConfig : RenderConfig)
    (w : World) : World :=
  match lifecycle w with
  | Mounted => getSpectrogramImageData (fileIndex renderConfig) (KPut request) w
  | _ => w
  end.

(** The call [renderMarkings(renderConfig, computedValues)], made for
    [request]: it draws on the canvas of [renderConfig.ctx]. *)
Definition callRenderMarkings (request : nat) (renderConfig : RenderConfig)
    (computedValues : list (LabeledFieldValue env)) (w : World) : World :=
  let w := observe (ObsRenderMarkings request (fileIndex renderConfig)) w in
  match ctx renderConfig with
  | SpectrogramSurface =>
      set_spectrogramCanvas (renderMarkings env renderConfig computedValues) w
  | InternalSurface =>
      set_internalCanvas (renderMarkings env renderConfig computedValues) w
  end.

(** The callback of [useSelectedAudioFileToRender] (lines 294-303) for
    the renderer list [[this.renderSpectrogramUsingCache, renderMarkings]],
    the only one it is called with. [ctx] was taken from the canvas when
    the request was made; the index and the config are read now. *)
Definition runRenderers (request : nat) (computedValues : list (LabeledFieldValue env))
    (k : VoidK) (audioData : AudioData) (w : World) : World :=
  let renderConfig : RenderConfig :=
    {| fileIndex := selectedIndex (state w); ctx := SpectrogramSurface;
       audioBuffer := adAudioBuffer audioData;
       snatcitConfig := config (state w) |} in
  let w := renderSpectrogramUsingCache request renderConfig w in
  let w := callRenderMarkings request renderConfig computedValues w in
  fulfilVoid request k w.

(** [useSelectedAudioFileToRender([this.renderSpectrogramUsingCache,
    renderMarkings]).then(k)] (lines 278-304), the part that runs at
    once. Reading [.name] of a file that is not there throws. *)
Definition useSelectedAudioFileToRender (k : VoidK) (w : World) : World :=
  let request := nextRequest w in
  let w := set_nextRequest (S request) w in
  match lifecycle w with
  | Mounted =>
      match fileAt (props w) (selectedIndex (state w)) with
      | Some file =>
          let computedValues := computedValuesOf env (config (state w)) (name file) in
          getAudioData (selectedIndex (state w)) (KRenderers request computedValues k) w
      | None => observe (ObsUncaught TypeError) w
      end
  | _ => fulfilVoid request k w
  end.

(** The callback of [resizeAndRerenderCanvas] (lines 267-275). *)
Definition restyleCanvas (w : World) : World :=
  let w := set_spectrogramCanvas (Canvas.setStylePosition PositionStatic) w in
  let availableHeight := innerHeight (window w) - canvasTop w in
  let w := set_spectrogramCanvas (Canvas.setStyleHeight availableHeight) w in
  set_spectrogramCanvas (Canvas.setStylePosition PositionAbsolute) w.

(** [resizeAndRerenderCanvas] (lines 258-276) *)
Definition resizeAndRerenderCanvas (w : World) : World :=
  match lifecycle w with
  | Mounted => useSelectedAudioFileToRender KRestyle w
  | _ => w
  end.

(** [windowOnResize] (lines 180-183) *)
Definition windowOnResize (w : World) : World :=
  let w := set_spectrogramImageDataCache (λ _, ∅) w in
  resizeAndRerenderCanvas w.

(** *** React

    [render] (lines 64-131) builds the view from the state; its only
    effect on the component is that line 70 throws when no file is
    selected. React then takes the component down. *)
Definition render (w : World) : bool :=
  match fileAt (props w) (selectedIndex (state w)) with Some _ => true | None => false end.

Definition crash (w : World) : World :=
  set_lifecycle Unmounted (observe (ObsUncaught TypeError) w).

(** [componentDidMount] (lines 51-54); the resize listener is registered
    exactly while the component is mounted. *)
Definition componentDidMount (w : World) : World := resizeAndRerenderCanvas w.

(** [componentDidUpdate] (lines 56-58) *)
Definition componentDidUpdate (w : World) : World := resizeAndRerenderCanvas w.

(** [this.setState(update, callback)] from an event handler: React
    applies the update, renders, commits, calls [componentDidUpdate] and
    then the callback. *)
Definition setState (update : AppState → AppState) (callback : World → World)
    (w : World) : World :=
  let w := set_state update w in
  if render w then callback (componentDidUpdate w) else crash w.

Definition withSelectedIndex (i : Z) (s : AppState) : AppState :=
  {| volume := volume s; isPlaying := isPlaying s; selectedIndex := i;
     config := config s |}.

Definition withVolume (v : JsNumber) (s : AppState) : AppState :=
  {| volume := v; isPlaying := isPlaying s; selectedIndex := selectedIndex s;
     config := config s |}.

(** [previousFileButtonOnClick] (lines 133-145) *)
Definition previousFileButtonOnClick (w : World) : World :=
  let previousIndex := Z.max 0 (selectedIndex (state w) - 1) in
  setState (withSelectedIndex previousIndex)
    (useSelectedAudioFileToRender KDropped) w.

(** [nextFileButtonOnClick] (lines 147-162) *)
Definition nextFileButtonOnClick (w : World) : World :=
  let nextIndex :=
    Z.min (Z.of_nat (length (audioFiles (props w))) - 1)
          (selectedIndex (state w) + 1) in
  setState (withSelectedIndex nextIndex)
    (useSelectedAudioFileToRender KDropped) w.

(** [downloadButtonOnClick] (lines 164-166) *)
Definition downloadButtonOnClick (w : World) : World := w.

(** [volumeSliderOnChange] (lines 168-178); [value] is
    [change.target.value]. *)
Definition volumeSliderOnChange (value : string) (w : World) : World :=
  let unclamped := toNumber env value in
  if negb (isFinite unclamped) then w
  else
    let clampedVolume := mathMax jsZero (mathMin unclamped jsOne) in
    setState (withVolume clampedVolume) (λ w, w) w.

(** The constructor (lines 20-49), in a window of the given size. *)
Definition constructor (p : AppProps) (win : Window) (top : Z) : World :=
  {| props := p;
     state := {| volume := jsOne; isPlaying := false; selectedIndex := 0;
                 config := initialConfig p |};
     lifecycle := Constructed;
     spectrogramCanvas := Canvas.fresh;
     internalCanvas := Canvas.fresh;
     audioDataCache := ∅;
     spectrogramImageDataCache := ∅;
     window := win; canvasTop := top;
     microtasks := []; macrotasks := [];
     nextRequest := 0%nat; trace := [] |}.

(** ** The event loop *)

(** What the page and the user can do to the component. *)
Inductive Event :=
| Mount
| Unmount
| ClickPrevious
| ClickNext
| ClickDownload
| VolumeChange (value : string)
| Resize (win : Window).

Definition mount (w : World) : World :=
  if render w then componentDidMount (set_lifecycle Mounted w) else crash w.

(** The handlers are attached while the component is mounted. A resize
    changes the window first and then fires [windowOnResize]. *)
Definition handle (e : Event) (w : World) : World :=
  match e, lifecycle w with
  | Mount, Constructed => mount w
  | Unmount, Mounted => set_lifecycle Unmounted w
  | ClickPrevious, Mounted => previousFileButtonOnClick w
  | ClickNext, Mounted => nextFileButtonOnClick w
  | ClickDownload, Mounted => downloadButtonOnClick w
  | VolumeChange value, Mounted => volumeSliderOnChange value w
  | Resize win, Mounted => windowOnResize (set_window win w)
  | Resize win, _ => set_window win w
  | _, _ => w
  end.

Definition runJob (j : Job) (w : World) : World :=
  match j with
  | JAudio data (KRenderImage index k) => renderImage index k data w
  | JAudio data (KRenderers request computedValues k) =>
      runRenderers request computedValues k data w
  | JImage imgData (KPut request) => putSpectrogram request imgData w
  | JRestyle => restyleCanvas w
  end.

Definition runTask (t : Task) (w : World) : World :=
  match t with
  | TLoad index file k => fileReaderOnLoad index file k w
  | TDecoded index buffer k => decodeSuccess index buffer k w
  end.

(** One turn of the loop: promise jobs run first, oldest first; a
    platform callback or an event is taken only when none is left. The
    platform may complete its reads and decodes in any order. *)
Inductive step : World → World → Prop :=
| step_job j js w :
    microtasks w = j :: js →
    step w (runJob j (set_microtasks js w))
| step_task t before after w :
    microtasks w = [] →
    macrotasks w = before ++ t :: after →
    step w (runTask t (set_macrotasks (before ++ after) w))
| step_event e w :
    microtasks w = [] →
    step w (handle e w).

Inductive steps : World → World → Prop :=
| steps_refl w : steps w w
| steps_step w1 w2 w3 : steps w1 w2 → step w2 w3 → steps w1 w3.

(** The worlds a session can be in. *)
Definition reachable (p : AppProps) (w : World) : Prop :=
  ∃ win top, steps (constructor p win top) w.

(** The loop left alone, with the pending callbacks taken oldest first. *)
Definition next (w : World) : option World :=
  match microtasks w with
  | j :: js => Some (runJob j (set_microtasks js w))
  | [] =>
      match macrotasks w with
      | t :: ts => Some (runTask t (set_macrotasks ts w))
      | [] => None
      end
  end.

Fixpoint drain (fuel : nat) (w : World) : World :=
  match fuel with
  | O => w
  | S fuel' => match next w with Some w' => drain fuel' w' | None => w end
  end.

(** Nothing is pending. *)
Definition quiescent (w : World) : Prop :=
  microtasks w = [] ∧ macrotasks w = [].

(** How often an observation occurs in a trace. *)
Fixpoint occurrences (P : Observation → bool) (t : list Observation) : nat :=
  match t with
  | [] => 0
  | o :: t' => ((if P o then 1 else 0) + occurrences P t')%nat
  end.

Definition isDecode (index : Z) (o : Observation) : bool :=
  match o with ObsDecode i => bool_decide (i = index) | _ => false end.

Definition isAnalyze (index : Z) (o : Observation) : bool :=
  match o with ObsAnalyze i => bool_decide (i = index) | _ => false end.

Definition isRenderSpectrogram (index : Z) (o : Observation) : bool :=
  match o with ObsRenderSpectrogram i => bool_decide (i = index) | _ => false end.

Definition isSettled (request : nat) (o : Observation) : bool :=
  match o with ObsSettled r _ => bool_decide (r = request) | _ => false end.

End App.

#[global] Arguments fileAt {env} p index : simpl never.

(** ** Notions the statements below use *)

Section Statements.
Context {env : Env}.

(** Props, state, lifecycle and window are the same in both worlds. *)
Definition stable (w w' : World) : Prop :=
  props w' = props w ∧ state w' = state w ∧ lifecycle w' = lifecycle w
  ∧ window w' = window w ∧ canvasTop w' = canvasTop w.

(** [w'] is [w] after one more render request has run to its end:
    nothing is pending and the observations [new] were made. *)
Definition completes (w w' : World) (new : list Observation) : Prop :=
  quiescent w' ∧ stable w w' ∧ nextRequest w' = S (nextRequest w)
  ∧ trace w' = trace w ++ new.

(** [n] render requests one after the other, each left to run to its
    end (with [fuel] turns of the loop) before the next is made. *)
Fixpoint renderTimes (k : VoidK) (fuel n : nat) (w : World) : World :=
  match n with
  | O => w
  | S n' => renderTimes k fuel n' (drain fuel (useSelectedAudioFileToRender k w))
  end.

(** What decoding and analysing file [index] yields. *)
Definition producedAudio (p : AppProps) (index : Z) : option AudioData :=
  match fileAt p index with
  | Some file =>
      match decodeAudioData env (content file) with
      | Some buffer =>
          Some {| adAudioBuffer := buffer;
                  spectrumFftData := getSpectrumFftData env buffer (initialConfig p) |}
      | None => None
      end
  | None => None
  end.

(** A pending platform callback belongs to a file of the list. *)
Definition taskSound (p : AppProps) (t : Task) : Prop :=
  match t with
  | TLoad index file _ => fileAt p index = Some file
  | TDecoded index buffer _ =>
      ∃ file, fileAt p index = Some file
              ∧ decodeAudioData env (content file) = Some buffer
  end.

(** The AudioData cache holds only what decoding and analysing yields,
    and so will whatever is still under way. *)
Definition audioCacheSound (w : World) : Prop :=
  config (state w) = initialConfig (props w)
  ∧ (∀ i d, audioDataCache w !! i = Some d → producedAudio (props w) i = Some d)
  ∧ Forall (taskSound (props w)) (macrotasks w).

(** What a promise job or an event handler may do to the audio side:
    props, config and the AudioData cache stay, and pending platform
    callbacks stay sound. *)
Definition audioFrame (w w' : World) : Prop :=
  props w' = props w
  ∧ config (state w') = config (state w)
  ∧ audioDataCache w' = audioDataCache w
  ∧ (Forall (taskSound (props w)) (macrotasks w)
     → Forall (taskSound (props w)) (macrotasks w')).

(** Audio and image of the selected file [i] are cached and nothing is
    pending. *)
Definition warm (i : Z) (d : AudioData) (img : ImageData.t) (w : World) : Prop :=
  lifecycle w = Mounted ∧ quiescent w ∧ selectedIndex (state w) = i
  ∧ is_Some (fileAt (props w) i)
  ∧ audioDataCache w !! i = Some d
  ∧ spectrogramImageDataCache w !! i = Some img.

End Statements.

(** ** The view

    What [render] (lines 64-131) puts on the page, as far as [App.tsx]
    decides it. *)

Section View.
Context {env : Env}.

(** [getAllFieldValuesForEntry(config, name)
      .namesOfDerivedFieldsThatCouldNotBeComputed], from [./config]. *)
Variable namesNotComputed : Config env → string → list string.

Record View := {
  shownFileName : option string;   (* [fileNames[selectedIndex]] *)
  shownPosition : Z;               (* [selectedIndex + 1] *)
  shownTotal : Z;                  (* [fileNames.length] *)
  sliderValue : JsNumber;          (* the range input's [value] *)
  previousDisabled : bool;
  downloadDisabled : bool;
  nextDisabled : bool;
  (** The list under "Fields that could not be computed:", shown only
      when it is not empty. *)
  shownNotComputed : option (list string)
}.

(** [render]; [None] when line 70 throws. *)
Definition renderView (w : World) : option View :=
  let fileNames := map name (audioFiles (props w)) in
  let selected := selectedIndex (state w) in
  let playing := isPlaying (state w) in
  match fileAt (props w) selected with
  | None => None
  | Some file =>
      let names := namesNotComputed (config (state w)) (name file) in
      Some {|
        shownFileName :=
          if selected <? 0 then None else fileNames !! Z.to_nat selected;
        shownPosition := selected + 1;
        shownTotal := Z.of_nat (length fileNames);
        sliderValue := volume (state w);
        previousDisabled := negb ((0 <? selected) && negb playing);
        downloadDisabled := playing;
        nextDisabled :=
          negb ((selected <? Z.of_nat (length fileNames) - 1) && negb playing);
        shownNotComputed :=
          if (0 <? length names)%nat then Some names else None
      |}
  end.

End View.

(** ** Further notions *)

Section Notions.
Context {env : Env}.

(** A buffer of positive size that holds width * height pixels. *)
Definition wellFormedImage (img : ImageData.t) : Prop :=
  (0 < ImageData.width img)%N ∧ (0 < ImageData.height img)%N
  ∧ length (ImageData.data img)
    = N.to_nat (ImageData.width img * ImageData.height img).

(** An image is well formed and, while the component is mounted, as
    wide as the window. *)
Definition imageFits (w : World) (img : ImageData.t) : Prop :=
  wellFormedImage img
  ∧ (lifecycle w = Mounted → ImageData.width img = innerWidth (window w)).

(** Every cached image is well formed and, while the component is
    mounted, as wide as the window; before the mount nothing is cached
    or pending. *)
Definition imageCacheFits (w : World) : Prop :=
  (lifecycle w = Constructed →
     spectrogramImageDataCache w = ∅ ∧ microtasks w = [] ∧ macrotasks w = [])
  ∧ (∀ i img, spectrogramImageDataCache w !! i = Some img →
       wellFormedImage img
       ∧ (lifecycle w = Mounted → ImageData.width img = innerWidth (window w))).

(** No promise of a render request was rejected and no [TypeError]
    ended in an unhandled rejection. *)
Definition noRejection (o : Observation) : Prop :=
  match o with
  | ObsSettled _ (Rejected _) => False
  | ObsUnhandledRejection TypeError => False
  | _ => True
  end.


(** While mounted, the selected file exists. *)
Definition fileSelected (w : World) : Prop :=
  lifecycle w = Mounted → is_Some (fileAt (props w) (selectedIndex (state w))).

(** *** How much is left to run

    An upper bound on the turns of the loop a pending job or callback
    can still cause, itself included. *)

Definition voidWeight (k : VoidK) : nat :=
  match k with KRestyle => 1 | KDropped => 0 end.

Definition jobWeight (j : Job) : nat :=
  match j with
  | JAudio _ (KRenderImage _ _) => 2
  | JAudio _ (KRenderers _ _ k) => 5 + voidWeight k
  | JImage _ _ => 1
  | JRestyle => 1
  end.

Definition taskWeight (t : Task) : nat :=
  match t with
  | TLoad _ _ (KRenderImage _ _) => 4
  | TLoad _ _ (KRenderers _ _ k) => 7 + voidWeight k
  | TDecoded _ _ (KRenderImage _ _) => 3
  | TDecoded _ _ (KRenderers _ _ k) => 6 + voidWeight k
  end.

Fixpoint total {A} (f : A → nat) (l : list A) : nat :=
  match l with
  | [] => 0
  | x :: l' => f x + total f l'
  end.

Definition pendingWeight (w : World) : nat :=
  total jobWeight (microtasks w) + total taskWeight (macrotasks w).

End Notions.

(** ** The spec's reading of the volume handler

    "Clamped into [0, 1]", as the spec words it, to compare the handler
    against. *)
Definition clampToUnit (x : JsNumber) : JsNumber :=
  if SFltb x jsZero then jsZero
  else if SFltb jsOne x then jsOne
  else x.

(** ** A small concrete session

    Two files, the second of which is no audio; tiny spectrograms of two
    frequency bins; a spectrogram renderer that paints every pixel 7 and
    a markings renderer that paints every pixel 9. *)

Definition jsHalf : JsNumber :=
  {| sf := S754_finite false 4503599627370496 (-53); sf_valid := eq_refl |}.

Definition jsSeven : JsNumber :=
  {| sf := S754_finite false 7881299347898368 (-50); sf_valid := eq_refl |}.

Definition paint (colour : Pixel) (c : Canvas.t) : Canvas.t :=
  Canvas.setBitmap (map (λ _, colour) (Canvas.bitmap c)) c.

Definition demoEnv : Env := {|
  Config := unit;
  AudioBuffer := list Byte.byte;
  SpectrumFftData := N;
  LabeledFieldValue := string;
  spectrumBins := λ bins, bins;
  decodeAudioData := λ bytes, match bytes with [] => None | _ => Some bytes end;
  getSpectrumFftData := λ _ _, 2%N;
  computedValuesOf := λ _ fileName, [fileName];
  renderSpectrogram := λ _, paint 7%N;
  renderMarkings := λ _ _, paint 9%N;
  toNumber := λ s,
    if String.eqb s "0.5" then jsHalf
    else if String.eqb s "7" then jsSeven
    else jsNaN
|}.

Definition demoFiles : list AudioFile :=
  [ {| name := "a.wav"; content := [Byte.x52; Byte.x49] |};
    {| name := "b.wav"; content := [] |} ].

Definition demoProps : @AppProps demoEnv :=
  @Build_AppProps demoEnv demoFiles tt.

(** Only the file that is no audio. *)
Definition corruptProps : @AppProps demoEnv :=
  @Build_AppProps demoEnv [ {| name := "b.wav"; content := [] |} ] tt.

Definition demoWindow : Window := {| innerWidth := 3; innerHeight := 100 |}.

Definition collapsedWindow : Window := {| innerWidth := 0; innerHeight := 100 |}.

(** The session at the moment React has mounted the component, before
    [componentDidMount] makes the first render request. *)
Definition demoFresh : @World demoEnv :=
  set_lifecycle Mounted (constructor demoProps demoWindow 20).

(** The session after the component is mounted and the loop has run dry. *)
Definition demoMounted : @World demoEnv :=
  drain 10 (handle Mount (constructor demoProps demoWindow 20)).

(** The same with only the corrupt file, and in a collapsed window. *)
Definition corruptFresh : @World demoEnv :=
  set_lifecycle Mounted (constructor corruptProps demoWindow 20).

Definition corruptMounted : @World demoEnv :=
  drain 10 (handle Mount (constructor corruptProps demoWindow 20)).

Definition collapsedMounted : @World demoEnv :=
  drain 10 (handle Mount (constructor demoProps collapsedWindow 20)).

(** Two files that both decode, mounted and run dry. *)
Definition pairProps : @AppProps demoEnv :=
  @Build_AppProps demoEnv
    [ {| name := "a.wav"; content := [Byte.x52; Byte.x49] |};
      {| name := "c.wav"; content := [Byte.x46] |} ] tt.

Definition pairMounted : @World demoEnv :=
  drain 10 (handle Mount (constructor pairProps demoWindow 20)).

(** No files at all. *)
Definition emptyProps : @AppProps demoEnv := @Build_AppProps demoEnv [] tt.

(** The names [getAllFieldValuesForEntry] could not compute, in the
    concrete session: none for the first file. *)
Definition demoNotComputed : unit → string → list string :=
  λ _ fileName, if String.eqb fileName "a.wav" then [] else ["pitch"].

(** An 800 pixel wide window and a spectrum of 256 bins. *)
Definition wideWorld : @World demoEnv :=
  constructor demoProps {| innerWidth := 800; innerHeight := 600 |} 20.

Definition spectrum256 : @AudioData demoEnv :=
  @Build_AudioData demoEnv [Byte.x52; Byte.x49] 256%N.

(** What the page shows once the first file is drawn. *)
Definition demoView : View :=
  {| shownFileName := Some "a.wav"; shownPosition := 1; shownTotal := 2;
     sliderValue := jsOne; previousDisabled := true;
     downloadDisabled := false; nextDisabled := false;
     shownNotComputed := None |}.

(** The image of the first file in the concrete session. *)
Definition demoImage : ImageData.t :=
  {| ImageData.width := 3; ImageData.height := 2;
     ImageData.data := [7; 7; 7; 7; 7; 7]%N |}.

Definition demoAudio : @AudioData demoEnv :=
  @Build_AudioData demoEnv [Byte.x52; Byte.x49] 2%N.

(** Both files of the pair seen: the second is selected. *)
Definition pairBoth : @World demoEnv := drain 10 (handle ClickNext pairMounted).

Create HintDb app.

(** ** Frame lemmas: what each part of the pipeline leaves alone *)

Section Frame.
Context {env : Env}.

#[local] Hint Unfold
  getAudioData fileReaderOnLoad decodeSuccess getSpectrogramImageData
  renderImage putSpectrogram renderSpectrogramUsingCache callRenderMarkings
  runRenderers useSelectedAudioFileToRender restyleCanvas
  resizeAndRerenderCanvas windowOnResize rejectImage rejectAudio fulfilVoid
  queueMicrotask queueMacrotask runJob runTask
  componentDidMount componentDidUpdate crash : app.

Ltac frame :=
  intros; unfold stable; repeat autounfold with app;
  repeat (case_match; simpl in *; try done); try done.

Lemma runTask_stable t w : stable w (runTask t w).
Proof. destruct t; frame. Qed.

Lemma runJob_stable j w : stable w (runJob j w).
Proof. destruct j as [d [i k|r cv k]|img [r]|]; frame. Qed.

Lemma useSelectedAudioFileToRender_stable k w :
  stable w (useSelectedAudioFileToRender k w).
Proof. frame. Qed.

Lemma resizeAndRerenderCanvas_stable w : stable w (resizeAndRerenderCanvas w).
Proof. frame. Qed.

Lemma stable_refl w : stable w w.
Proof. by unfold stable. Qed.

Lemma stable_trans w1 w2 w3 : stable w1 w2 → stable w2 w3 → stable w1 w3.
Proof. unfold stable. intros (?&?&?&?&?) (?&?&?&?&?). repeat split; congruence. Qed.

(** After [setState] the state is the updated one, whatever React and
    the callback do afterwards. *)
Lemma setState_state update callback w :
  (∀ w', stable w' (callback w')) →
  props (setState update callback w) = props w
  ∧ state (setState update callback w) = update (state w)
  ∧ window (setState update callback w) = window w.
Proof.
  intros Hcb. unfold setState. destruct (render _).
  - destruct (Hcb (componentDidUpdate (set_state update w))) as (Hp&Hs&_&Hw&_).
    destruct (resizeAndRerenderCanvas_stable (set_state update w)) as (Hp'&Hs'&_&Hw'&_).
    unfold componentDidUpdate in *. rewrite Hp, Hs, Hw, Hp', Hs', Hw'. done.
  - done.
Qed.

Lemma handle_props e w : props (handle e w) = props w.
Proof.
  destruct e; unfold handle; destruct (lifecycle w) eqn:Hl; try done.
  - unfold mount. destruct (render w); [|done].
    apply (resizeAndRerenderCanvas_stable (set_lifecycle Mounted w)).
  - apply setState_state. apply useSelectedAudioFileToRender_stable.
  - apply setState_state. apply useSelectedAudioFileToRender_stable.
  - unfold volumeSliderOnChange. destruct (negb _); [done|].
    apply setState_state. intros; apply stable_refl.
  - unfold windowOnResize.
    apply (resizeAndRerenderCanvas_stable
             (set_spectrogramImageDataCache (λ _, ∅) (set_window win w))).
Qed.

Lemma step_props w w' : step w w' → props w' = props w.
Proof.
  destruct 1 as [j js w _|t before after w _ _|e w _].
  - apply (runJob_stable j (set_microtasks js w)).
  - apply (runTask_stable t (set_macrotasks (before ++ after) w)).
  - apply handle_props.
Qed.

Lemma steps_props w w' : steps w w' → props w' = props w.
Proof.
  induction 1 as [|w1 w2 w3 _ IH Hs]; [done|].
  rewrite (step_props _ _ Hs). exact IH.
Qed.

Lemma reachable_props p w : reachable p w → props w = p.
Proof. intros (win & top & Hs). by rewrite (steps_props _ _ Hs). Qed.

(** An invariant of the constructed world that every turn of the loop
    keeps holds in every reachable world. *)
Lemma reachable_ind (p : AppProps) (I : World → Prop) :
  (∀ win top, I (constructor p win top)) →
  (∀ w w', reachable p w → I w → step w w' → I w') →
  ∀ w, reachable p w → I w.
Proof.
  intros Hinit Hstep w (win & top & Hs).
  remember (constructor p win top) as w0 eqn:Hw0.
  induction Hs as [|w1 w2 w3 H12 IH H23]; subst.
  - apply Hinit.
  - apply (Hstep w2); [by exists win, top | by apply IH | done].
Qed.

(** *** The selected index *)

Lemma handle_selectedIndex e w :
  selectedIndex (state (handle e w)) = selectedIndex (state w)
  ∨ (e = ClickPrevious ∧ lifecycle w = Mounted
     ∧ selectedIndex (state (handle e w)) = Z.max 0 (selectedIndex (state w) - 1))
  ∨ (e = ClickNext ∧ lifecycle w = Mounted
     ∧ selectedIndex (state (handle e w))
       = Z.min (Z.of_nat (length (audioFiles (props w))) - 1)
               (selectedIndex (state w) + 1)).
Proof.
  destruct e; unfold handle; destruct (lifecycle w) eqn:Hl; try (by left).
  - left. unfold mount, componentDidMount. destruct (render w); [|done].
    by destruct (resizeAndRerenderCanvas_stable (set_lifecycle Mounted w))
      as (_&->&_).
  - right; left. repeat split. unfold previousFileButtonOnClick.
    edestruct setState_state as (_&->&_); [|done].
    apply useSelectedAudioFileToRender_stable.
  - right; right. repeat split. unfold nextFileButtonOnClick.
    edestruct setState_state as (_&->&_); [|done].
    apply useSelectedAudioFileToRender_stable.
  - left. unfold volumeSliderOnChange. destruct (negb _); [done|].
    edestruct setState_state as (_&->&_); [|done].
    intros; apply stable_refl.
  - left. unfold windowOnResize.
    by destruct (resizeAndRerenderCanvas_stable
             (set_spectrogramImageDataCache (λ _, ∅) (set_window win w)))
      as (_&->&_).
Qed.

Lemma step_selectedIndex_in_range w w' :
  let last := Z.of_nat (length (audioFiles (props w))) - 1 in
  0 ≤ last →
  step w w' →
  0 ≤ selectedIndex (state w) ≤ last →
  0 ≤ selectedIndex (state w') ≤ last.
Proof.
  intros last Hlast Hstep Hin.
  destruct Hstep as [j js w _|t before after w _ _|e w _].
  - by destruct (runJob_stable j (set_microtasks js w)) as (_&->&_).
  - by destruct (runTask_stable t (set_macrotasks (before ++ after) w)) as (_&->&_).
  - destruct (handle_selectedIndex e w) as [->|[(_&_&->)|(_&_&->)]]; [done|lia|].
    fold last. lia.
Qed.

(** C9. With a non-empty file list the selected index is 0 at first and
    stays between 0 and the last index in every reachable world;
    Previous at index 0 leaves it at 0 and Next at the last index leaves
    it at the last index. *)
Theorem selectedIndex_in_range (p : AppProps) (Hfiles : audioFiles p ≠ []) :
  let last := Z.of_nat (length (audioFiles p)) - 1 in
  (∀ win top, selectedIndex (state (constructor p win top)) = 0)
  ∧ (∀ w, reachable p w → 0 ≤ selectedIndex (state w) ≤ last)
  ∧ (∀ w, reachable p w → selectedIndex (state w) = 0 →
          selectedIndex (state (handle ClickPrevious w)) = 0)
  ∧ (∀ w, reachable p w → selectedIndex (state w) = last →
          selectedIndex (state (handle ClickNext w)) = last).
Proof.
  intros last.
  assert (Hlast : 0 ≤ last).
  { unfold last. destruct (audioFiles p); [done|]. simpl length. lia. }
  split; [done|]. split; [|split].
  - apply reachable_ind.
    + intros; simpl. lia.
    + intros w w' Hr Hin Hstep.
      pose proof (step_selectedIndex_in_range w w') as Hs.
      rewrite (reachable_props _ _ Hr) in Hs. by apply Hs.
  - intros w _ H0.
    destruct (handle_selectedIndex ClickPrevious w)
      as [->|[(_&_&->)|(Hcontra&_)]]; [done|lia|done].
  - intros w Hr Hl.
    destruct (handle_selectedIndex ClickNext w)
      as [->|[(Hcontra&_)|(_&_&->)]]; [done|done|].
    rewrite (reachable_props _ _ Hr). fold last. lia.
Qed.

(** *** The volume *)

Lemma SFcompare_pos_antisym m1 e1 m2 e2 :
  SFcompare (S754_finite false m2 e2) (S754_finite false m1 e1)
  = option_map CompOpp (SFcompare (S754_finite false m1 e1) (S754_finite false m2 e2)).
Proof.
  simpl. rewrite (Z.compare_antisym e1 e2).
  destruct (e1 ?= e2); simpl; try done.
  by rewrite (Pos.compare_cont_antisym m1 m2 Eq).
Qed.

Lemma SFcompare_pos_refl m e :
  SFcompare (S754_finite false m e) (S754_finite false m e) = Some Eq.
Proof. simpl. by rewrite Z.compare_refl, Pos.compare_cont_refl. Qed.

(** What [Math.max(0, Math.min(x, 1))] is for a finite [x]. *)
Lemma clamp_cases (x : JsNumber) :
  isFinite x = true →
  let v := mathMax jsZero (mathMin x jsOne) in
  (v = jsZero ∧ SFeqb jsZero (clampToUnit x) = true)
  ∨ (v = jsOne ∧ SFeqb jsOne (clampToUnit x) = true)
  ∨ (v = x ∧ clampToUnit x = x ∧ SFeqb x x = true
     ∧ SFltb jsZero x = true ∧ SFltb x jsOne = true).
Proof.
  destruct x as [[s|s| |[] m e] Hv]; try done; intros _.
  - left. split; [done|]. by destruct s.
  - left. done.
  - set (x := {| sf := S754_finite false m e; sf_valid := Hv |}).
    assert (Hrefl : SFeqb x x = true).
    { unfold SFeqb. simpl. by rewrite Z.compare_refl, Pos.compare_cont_refl. }
    destruct (SFcompare x jsOne) as [c|] eqn:Hc; [|done].
    assert (Hanti : SFcompare jsOne x = Some (CompOpp c)).
    { unfold x in *. simpl sf in *. rewrite SFcompare_pos_antisym, Hc. done. }
    assert (Hmin : mathMin x jsOne = if c is Lt then x else jsOne).
    { unfold mathMin, SFltb. rewrite Hc, Hanti. by destruct c. }
    assert (Hclamp : clampToUnit x = if c is Gt then jsOne else x).
    { unfold clampToUnit, SFltb. rewrite Hanti. by destruct c. }
    intros v. unfold v. rewrite Hmin, Hclamp.
    destruct c.
    + right; left. split; [done|]. unfold SFeqb. by rewrite Hanti.
    + right; right. unfold SFltb. rewrite Hc. done.
    + right; left. done.
Qed.

Lemma clamp_inUnitInterval (x : JsNumber) :
  isFinite x = true →
  inUnitInterval (mathMax jsZero (mathMin x jsOne)) = true.
Proof.
  intros Hx. destruct (clamp_cases x Hx) as [(->&_)|[(->&_)|(->&_&_&H0&H1)]];
    [done|done|].
  unfold inUnitInterval, SFleb, SFltb in *.
  destruct (SFcompare jsZero x) as [[]|]; try done.
  destruct (SFcompare x jsOne) as [[]|]; done.
Qed.

Lemma volumeSliderOnChange_volume value w :
  volume (state (volumeSliderOnChange value w))
  = if isFinite (toNumber env value)
    then mathMax jsZero (mathMin (toNumber env value) jsOne)
    else volume (state w).
Proof.
  unfold volumeSliderOnChange. destruct (isFinite _); simpl; [|done].
  edestruct setState_state as (_&->&_); [|done].
  intros; apply stable_refl.
Qed.

Lemma step_volume w w' :
  step w w' → inUnitInterval (volume (state w)) = true →
  inUnitInterval (volume (state w')) = true.
Proof.
  destruct 1 as [j js w _|t before after w _ _|e w _]; intros Hin.
  - by destruct (runJob_stable j (set_microtasks js w)) as (_&->&_).
  - by destruct (runTask_stable t (set_macrotasks (before ++ after) w)) as (_&->&_).
  - destruct e; unfold handle; destruct (lifecycle w) eqn:Hl; try done.
    + unfold mount, componentDidMount. destruct (render w); [|done].
      by destruct (resizeAndRerenderCanvas_stable (set_lifecycle Mounted w))
        as (_&->&_).
    + unfold previousFileButtonOnClick.
      edestruct setState_state as (_&->&_); [|done].
      apply useSelectedAudioFileToRender_stable.
    + unfold nextFileButtonOnClick.
      edestruct setState_state as (_&->&_); [|done].
      apply useSelectedAudioFileToRender_stable.
    + rewrite volumeSliderOnChange_volume.
      destruct (isFinite _) eqn:Hf; [|done]. by apply clamp_inUnitInterval.
    + unfold windowOnResize.
      by destruct (resizeAndRerenderCanvas_stable
             (set_spectrogramImageDataCache (λ _, ∅) (set_window win w)))
        as (_&->&_).
Qed.

(** C10. The volume handler leaves the world as it is when the parsed
    number is not finite; otherwise the new volume is
    [Math.max(0, Math.min(x, 1))], which is the number clamped into
    [0, 1]; and the volume lies in [0, 1] in every reachable world. *)
Theorem volume_clamped :
  (∀ value w, isFinite (toNumber env value) = false →
     volumeSliderOnChange value w = w)
  ∧ (∀ value w, isFinite (toNumber env value) = true →
       volume (state (volumeSliderOnChange value w))
       = mathMax jsZero (mathMin (toNumber env value) jsOne)
       ∧ SFeqb (volume (state (volumeSliderOnChange value w)))
               (clampToUnit (toNumber env value)) = true)
  ∧ (∀ p w, reachable p w → inUnitInterval (volume (state w)) = true).
Proof.
  split; [|split].
  - intros value w Hf. unfold volumeSliderOnChange. by rewrite Hf.
  - intros value w Hf. rewrite volumeSliderOnChange_volume, Hf.
    split; [done|].
    by destruct (clamp_cases _ Hf) as [(->&Hc)|[(->&Hc)|(->&->&Hc&_)]].
  - intros p. apply reachable_ind; [done|].
    intros w w' _ Hin Hs. by apply (step_volume w w').
Qed.

End Frame.

(** ** Running a render request to the end *)

Section Pipeline.
Context {env : Env}.

Lemma getImageData_ok sw sh c :
  (0 < sw)%N → (0 < sh)%N →
  ∃ img, Canvas.getImageData sw sh c = inr img
         ∧ ImageData.width img = sw ∧ ImageData.height img = sh
         ∧ ImageData.area img = N.to_nat (sw * sh).
Proof.
  intros Hw Hh. unfold Canvas.getImageData.
  destruct (sw =? 0)%N eqn:E1; [apply N.eqb_eq in E1; lia|].
  destruct (sh =? 0)%N eqn:E2; [apply N.eqb_eq in E2; lia|].
  simpl. eexists. repeat split. unfold ImageData.area, tabulate. simpl.
  generalize 0%N. induction (N.to_nat (sw * sh)) as [|n IH]; intros start; simpl; [done|].
  by rewrite IH.
Qed.

Lemma getImageData_zero_width sh c :
  Canvas.getImageData 0 sh c = inl IndexSizeError.
Proof. done. Qed.

(** The pixels [putSpectrogram] leaves on the canvas do not depend on
    what was on it before. *)
Lemma put_bitmap_overwrites img c c' :
  let put c0 :=
    Canvas.putImageData img
      (Canvas.setHeight (ImageData.height img)
         (Canvas.setWidth (ImageData.width img) c0)) in
  Canvas.bitmap (put c) = Canvas.bitmap (put c').
Proof. done. Qed.

Lemma next_step w w' : next w = Some w' → step w w'.
Proof.
  unfold next. destruct (microtasks w) as [|j js] eqn:Hmi.
  - destruct (macrotasks w) as [|t ts] eqn:Hma; [done|].
    intros [= <-]. by apply (step_task t [] ts).
  - intros [= <-]. by apply step_job.
Qed.

Lemma steps_trans w1 w2 w3 : steps w1 w2 → steps w2 w3 → steps w1 w3.
Proof.
  intros H12 H23. induction H23 as [|w2 w3 w4 _ IH Hs]; [done|].
  eapply steps_step; [by apply IH|done].
Qed.

Lemma drain_steps n w : steps w (drain n w).
Proof.
  revert w. induction n as [|n IH]; intros w; simpl; [constructor|].
  destruct (next w) as [w'|] eqn:Hn; [|constructor].
  eapply steps_trans; [|apply IH].
  eapply steps_step; [constructor|by apply next_step].
Qed.

Lemma quiescent_next w : quiescent w → next w = None.
Proof. intros [Hmi Hma]. unfold next. by rewrite Hmi, Hma. Qed.

Lemma drain_quiescent n w : quiescent w → drain n w = w.
Proof. intros Hq. destruct n; simpl; [done|]. by rewrite quiescent_next. Qed.

Lemma drain_add n m w : drain (n + m) w = drain m (drain n w).
Proof.
  revert w. induction n as [|n IH]; intros w; simpl; [done|].
  destruct (next w) as [w'|] eqn:Hn; [apply IH|].
  destruct m; simpl; [done|]. by rewrite Hn.
Qed.

(** Once the loop has run dry more fuel changes nothing. *)
Lemma drain_enough n m w :
  quiescent (drain n w) → (n ≤ m)%nat → drain m w = drain n w.
Proof.
  intros Hq Hle. replace m with (n + (m - n))%nat by lia.
  rewrite drain_add. by apply drain_quiescent.
Qed.

Lemma drain_step n w w' : next w = Some w' → drain (S n) w = drain n w'.
Proof. intros H. simpl. by rewrite H. Qed.

Lemma drain_0 w : drain 0 w = w.
Proof. done. Qed.

Lemma bitmap_setStylePosition p c :
  Canvas.bitmap (Canvas.setStylePosition p c) = Canvas.bitmap c.
Proof. done. Qed.

Lemma bitmap_setStyleHeight h c :
  Canvas.bitmap (Canvas.setStyleHeight h c) = Canvas.bitmap c.
Proof. done. Qed.

End Pipeline.

#[global] Arguments drain {env} fuel w : simpl never.
#[global] Arguments next {env} w : simpl never.
#[global] Arguments Canvas.setWidth n c : simpl never.
#[global] Arguments Canvas.setHeight n c : simpl never.
#[global] Arguments Canvas.setStylePosition p c : simpl never.
#[global] Arguments Canvas.setStyleHeight h c : simpl never.
#[global] Arguments Canvas.putImageData img c : simpl never.
#[global] Arguments Canvas.getImageData sw sh c : simpl never.

(** Symbolic execution of the loop, one turn at a time: [world_is]
    brings the world under [drain] into the form of a record, [turn]
    takes the next job or callback. *)
Ltac world_is tac :=
  match goal with
  | |- context [drain ?n ?W] =>
      let E := fresh "E" in
      eassert (E : W = _) by (tac; reflexivity);
      rewrite E; clear E
  end.

Ltac turn :=
  match goal with
  | |- context [drain (S ?n) ?W] =>
      let E := fresh "E" in
      eassert (E : next W = Some _) by (unfold next; simpl; reflexivity);
      rewrite (drain_step n _ _ E); clear E
  end.

Ltac run_dry :=
  first [ rewrite drain_0
        | rewrite drain_quiescent by (split; reflexivity) ].

Section Requests.
Context {env : Env}.

(** A first request for a file: read, decode, analyse, then the
    renderers. *)
Lemma request_cold w k f b :
  let i := selectedIndex (state w) in
  let d := {| adAudioBuffer := b;
              spectrumFftData := getSpectrumFftData env b (config (state w)) |} in
  lifecycle w = Mounted → quiescent w →
  fileAt (props w) i = Some f →
  decodeAudioData env (content f) = Some b →
  audioDataCache w !! i = None →
  spectrogramImageDataCache w !! i = None →
  (0 < innerWidth (window w))%N →
  (0 < spectrumBins env (spectrumFftData d))%N →
  let w' := drain 6 (useSelectedAudioFileToRender k w) in
  completes w w'
    [ObsReadFile i; ObsDecode i; ObsAnalyze i;
     ObsRenderMarkings (nextRequest w) i; ObsSettled (nextRequest w) Fulfilled;
     ObsRenderSpectrogram i; ObsPutImageData (nextRequest w)]
  ∧ audioDataCache w' = <[i := d]> (audioDataCache w)
  ∧ ∃ img,
      ImageData.width img = innerWidth (window w)
      ∧ ImageData.height img = spectrumBins env (spectrumFftData d)
      ∧ spectrogramImageDataCache w' = <[i := img]> (spectrogramImageDataCache w)
      ∧ ∀ c0, Canvas.bitmap (spectrogramCanvas w')
        = Canvas.bitmap (Canvas.putImageData img
            (Canvas.setHeight (ImageData.height img)
               (Canvas.setWidth (ImageData.width img) c0))).
Proof.
  intros i d Hl [Hmi Hma] Hf Hd Ha Hi Hw Hb w'. subst i d w'.
  destruct w as [p st l sc ic ac imc win top mi ma nr tr].
  simpl in *. subst.
  edestruct (getImageData_ok (innerWidth win)
               (spectrumBins env (getSpectrumFftData env b (config st))))
    as (img & Himg & Hiw & Hih & _); [exact Hw|exact Hb|].
  world_is ltac:(unfold useSelectedAudioFileToRender, getAudioData; simpl;
                 rewrite Hf, Ha).
  turn. world_is ltac:(simpl; unfold fileReaderOnLoad; simpl; rewrite Hd).
  turn. world_is ltac:(simpl; unfold decodeSuccess; simpl).
  turn.
  world_is ltac:(simpl; unfold runRenderers, renderSpectrogramUsingCache,
                   getSpectrogramImageData, getAudioData; simpl;
                 rewrite Hi, lookup_insert_eq; simpl).
  destruct k.
  - world_is ltac:(simpl).
    turn. world_is ltac:(simpl; unfold renderImage; simpl; rewrite Himg; simpl).
    turn. world_is ltac:(simpl; unfold restyleCanvas; simpl).
    turn. world_is ltac:(simpl; unfold putSpectrogram; simpl).
    run_dry. unfold completes, quiescent, stable. simpl.
    rewrite <- !app_assoc. simpl. split; [done|]. split; [done|].
    exists img. split; [done|]. split; [done|]. split; [done|].
    intros c0. apply put_bitmap_overwrites.
  - world_is ltac:(simpl).
    turn. world_is ltac:(simpl; unfold renderImage; simpl; rewrite Himg; simpl).
    turn. world_is ltac:(simpl; unfold putSpectrogram; simpl).
    run_dry. unfold completes, quiescent, stable. simpl.
    rewrite <- !app_assoc. simpl. split; [done|]. split; [done|].
    exists img. split; [done|]. split; [done|]. split; [done|].
    intros c0. apply put_bitmap_overwrites.
Qed.

(** A request for a file whose audio is cached but whose image is not
    (after a resize): no read, no decode, the image is rendered again. *)
Lemma request_rerender w k f d :
  let i := selectedIndex (state w) in
  lifecycle w = Mounted → quiescent w →
  fileAt (props w) i = Some f →
  audioDataCache w !! i = Some d →
  spectrogramImageDataCache w !! i = None →
  (0 < innerWidth (window w))%N →
  (0 < spectrumBins env (spectrumFftData d))%N →
  let w' := drain 6 (useSelectedAudioFileToRender k w) in
  completes w w'
    [ObsRenderMarkings (nextRequest w) i; ObsSettled (nextRequest w) Fulfilled;
     ObsRenderSpectrogram i; ObsPutImageData (nextRequest w)]
  ∧ audioDataCache w' = audioDataCache w
  ∧ ∃ img,
      ImageData.width img = innerWidth (window w)
      ∧ ImageData.height img = spectrumBins env (spectrumFftData d)
      ∧ spectrogramImageDataCache w' = <[i := img]> (spectrogramImageDataCache w)
      ∧ ∀ c0, Canvas.bitmap (spectrogramCanvas w')
        = Canvas.bitmap (Canvas.putImageData img
            (Canvas.setHeight (ImageData.height img)
               (Canvas.setWidth (ImageData.width img) c0))).
Proof.
  intros i Hl [Hmi Hma] Hf Ha Hi Hw Hb w'. subst i w'.
  destruct w as [p st l sc ic ac imc win top mi ma nr tr].
  simpl in *. subst.
  edestruct (getImageData_ok (innerWidth win)
               (spectrumBins env (spectrumFftData d)))
    as (img & Himg & Hiw & Hih & _); [exact Hw|exact Hb|].
  world_is ltac:(unfold useSelectedAudioFileToRender, getAudioData; simpl;
                 rewrite Hf, Ha).
  turn.
  world_is ltac:(simpl; unfold runRenderers, renderSpectrogramUsingCache,
                   getSpectrogramImageData, getAudioData; simpl;
                 rewrite Hi, Ha; simpl).
  destruct k.
  - world_is ltac:(simpl).
    turn. world_is ltac:(simpl; unfold renderImage; simpl; rewrite Himg; simpl).
    turn. world_is ltac:(simpl; unfold restyleCanvas; simpl).
    turn. world_is ltac:(simpl; unfold putSpectrogram; simpl).
    run_dry. unfold completes, quiescent, stable. simpl.
    rewrite <- !app_assoc. simpl. split; [done|]. split; [done|].
    exists img. split; [done|]. split; [done|]. split; [done|].
    intros c0. apply put_bitmap_overwrites.
  - world_is ltac:(simpl).
    turn. world_is ltac:(simpl; unfold renderImage; simpl; rewrite Himg; simpl).
    turn. world_is ltac:(simpl; unfold putSpectrogram; simpl).
    run_dry. unfold completes, quiescent, stable. simpl.
    rewrite <- !app_assoc. simpl. split; [done|]. split; [done|].
    exists img. split; [done|]. split; [done|]. split; [done|].
    intros c0. apply put_bitmap_overwrites.
Qed.

(** A request for a file whose audio and image are both cached: only
    the two renderers' visible effects. *)
Lemma request_warm w k f d img :
  let i := selectedIndex (state w) in
  lifecycle w = Mounted → quiescent w →
  fileAt (props w) i = Some f →
  audioDataCache w !! i = Some d →
  spectrogramImageDataCache w !! i = Some img →
  let w' := drain 6 (useSelectedAudioFileToRender k w) in
  completes w w'
    [ObsRenderMarkings (nextRequest w) i; ObsSettled (nextRequest w) Fulfilled;
     ObsPutImageData (nextRequest w)]
  ∧ audioDataCache w' = audioDataCache w
  ∧ spectrogramImageDataCache w' = spectrogramImageDataCache w
  ∧ ∀ c0, Canvas.bitmap (spectrogramCanvas w')
      = Canvas.bitmap (Canvas.putImageData img
          (Canvas.setHeight (ImageData.height img)
             (Canvas.setWidth (ImageData.width img) c0))).
Proof.
  intros i Hl [Hmi Hma] Hf Ha Hi w'. subst i w'.
  destruct w as [p st l sc ic ac imc win top mi ma nr tr].
  simpl in *. subst.
  world_is ltac:(unfold useSelectedAudioFileToRender, getAudioData; simpl;
                 rewrite Hf, Ha).
  turn.
  world_is ltac:(simpl; unfold runRenderers, renderSpectrogramUsingCache,
                   getSpectrogramImageData; simpl;
                 rewrite Hi; simpl).
  destruct k.
  - world_is ltac:(simpl).
    turn. world_is ltac:(simpl; unfold putSpectrogram; simpl).
    turn. world_is ltac:(simpl; unfold restyleCanvas; simpl).
    run_dry. unfold completes, quiescent, stable. simpl.
    rewrite <- !app_assoc. simpl. split; [done|]. split; [done|]. split; [done|].
    intros c0.
    rewrite ?bitmap_setStylePosition, ?bitmap_setStyleHeight,
      ?bitmap_setStylePosition.
    apply put_bitmap_overwrites.
  - world_is ltac:(simpl).
    turn. world_is ltac:(simpl; unfold putSpectrogram; simpl).
    run_dry. unfold completes, quiescent, stable. simpl.
    rewrite <- !app_assoc. simpl. split; [done|]. split; [done|]. split; [done|].
    intros c0. apply put_bitmap_overwrites.
Qed.

(** A first request for a file that is no audio: the decoder's own
    promise is rejected with nobody listening, and that is all. *)
Lemma request_decode_failure w k f :
  let i := selectedIndex (state w) in
  lifecycle w = Mounted → quiescent w →
  fileAt (props w) i = Some f →
  decodeAudioData env (content f) = None →
  audioDataCache w !! i = None →
  let w' := drain 1 (useSelectedAudioFileToRender k w) in
  completes w w'
    [ObsReadFile i; ObsDecode i; ObsUnhandledRejection EncodingError]
  ∧ audioDataCache w' = audioDataCache w
  ∧ spectrogramImageDataCache w' = spectrogramImageDataCache w
  ∧ spectrogramCanvas w' = spectrogramCanvas w.
Proof.
  intros i Hl [Hmi Hma] Hf Hd Ha w'. subst i w'.
  destruct w as [p st l sc ic ac imc win top mi ma nr tr].
  simpl in *. subst.
  world_is ltac:(unfold useSelectedAudioFileToRender, getAudioData; simpl;
                 rewrite Hf, Ha).
  turn. world_is ltac:(simpl; unfold fileReaderOnLoad; simpl; rewrite Hd).
  run_dry. unfold completes, quiescent, stable. simpl.
  rewrite <- !app_assoc. simpl. done.
Qed.

(** *** The image callback *)

(** C6. On a cache miss with a positive display width and a positive
    bin count, the image callback produces a buffer whose width is the
    current display width and whose height is the spectrum's bin count;
    it holds width * height pixels, is stored under the index and is
    handed to the waiting callback. *)
Theorem rendered_image_dimensions (index : Z) (k : ImageK) (data : AudioData)
    (w : World)
    (Hwidth : (0 < innerWidth (window w))%N)
    (Hbins : (0 < spectrumBins env (spectrumFftData data))%N) :
  ∃ img,
    spectrogramImageDataCache (renderImage index k data w) !! index = Some img
    ∧ microtasks (renderImage index k data w) = microtasks w ++ [JImage img k]
    ∧ ImageData.width img = innerWidth (window w)
    ∧ ImageData.height img = spectrumBins env (spectrumFftData data)
    ∧ ImageData.area img
      = N.to_nat (innerWidth (window w) * spectrumBins env (spectrumFftData data)).
Proof.
  destruct w as [p st l sc ic ac imc win top mi ma nr tr]. simpl in *.
  edestruct (getImageData_ok (innerWidth win)
               (spectrumBins env (spectrumFftData data)))
    as (img & Himg & Hiw & Hih & Harea); [exact Hwidth|exact Hbins|].
  exists img. unfold renderImage. simpl. rewrite Himg. simpl.
  rewrite lookup_insert_eq. done.
Qed.

(** C4, as the code has it. With a display width of zero the image
    callback fails: [getImageData] raises [IndexSizeError], the promise
    of [getSpectrogramImageData] is rejected with nobody handling it, no
    buffer is cached or handed on, and the visible canvas is not
    touched. *)
Theorem zero_width_render_fails (index : Z) (k : ImageK) (data : AudioData)
    (w : World)
    (Hwidth : innerWidth (window w) = 0%N) :
  let w' := renderImage index k data w in
  trace w' = trace w ++ [ObsRenderSpectrogram index;
                         ObsUnhandledRejection IndexSizeError]
  ∧ spectrogramImageDataCache w' = spectrogramImageDataCache w
  ∧ microtasks w' = microtasks w
  ∧ spectrogramCanvas w' = spectrogramCanvas w.
Proof.
  destruct w as [p st l sc ic ac imc win top mi ma nr tr]. simpl in *.
  unfold renderImage. simpl. rewrite Hwidth, getImageData_zero_width. simpl.
  by rewrite <- app_assoc.
Qed.

(** *** The markings renderer and the image cache *)

(** C7. Calling the markings renderer leaves both caches as they are,
    entry by entry: within the renderers callback it draws on the
    visible canvas only, and the whole callback leaves the image cache
    and the internal canvas untouched. *)
Theorem markings_leave_image_cache :
  (∀ request (rc : RenderConfig) computedValues w,
     spectrogramImageDataCache (callRenderMarkings request rc computedValues w)
     = spectrogramImageDataCache w
     ∧ audioDataCache (callRenderMarkings request rc computedValues w)
       = audioDataCache w)
  ∧ (∀ request computedValues k data w index,
       spectrogramImageDataCache (runRenderers request computedValues k data w) !! index
       = spectrogramImageDataCache w !! index
       ∧ internalCanvas (runRenderers request computedValues k data w)
         = internalCanvas w).
Proof.
  split.
  - intros request rc cv w. unfold callRenderMarkings.
    by destruct (ctx rc).
  - intros request cv k data w index.
    unfold runRenderers, renderSpectrogramUsingCache, getSpectrogramImageData,
      getAudioData, rejectAudio, rejectImage, fulfilVoid, callRenderMarkings.
    simpl. repeat (case_match; simpl; try done).
Qed.

(** *** Requests one after the other *)

Lemma occurrences_app P t1 t2 :
  occurrences P (t1 ++ t2) = (occurrences P t1 + occurrences P t2)%nat.
Proof. induction t1 as [|o t1 IH]; simpl; [done|]. rewrite IH. lia. Qed.

(** The part of a request that runs at once writes to neither cache. *)
Lemma useSelectedAudioFileToRender_caches k w :
  audioDataCache (useSelectedAudioFileToRender k w) = audioDataCache w
  ∧ spectrogramImageDataCache (useSelectedAudioFileToRender k w)
    = spectrogramImageDataCache w.
Proof.
  unfold useSelectedAudioFileToRender, getAudioData, rejectAudio, fulfilVoid.
  simpl. repeat (case_match; simpl; try done).
Qed.

Lemma warm_request k fuel i d img w :
  (6 ≤ fuel)%nat → warm i d img w →
  let w' := drain fuel (useSelectedAudioFileToRender k w) in
  warm i d img w'
  ∧ trace w' = trace w ++ [ObsRenderMarkings (nextRequest w) i;
                           ObsSettled (nextRequest w) Fulfilled;
                           ObsPutImageData (nextRequest w)].
Proof.
  intros Hfuel (Hl & Hq & Hi & [f Hf] & Ha & Him) w'. subst i.
  destruct (request_warm w k f d img Hl Hq Hf Ha Him)
    as ((Hq' & (Hp & Hs & Hl' & _) & _ & Ht) & Ha' & Him' & _).
  assert (E : w' = drain 6 (useSelectedAudioFileToRender k w)).
  { apply drain_enough; [exact Hq'|exact Hfuel]. }
  rewrite E. unfold warm.
  rewrite Hl', Hs, Hp, Ha', Him', Ht. split_and!; done.
Qed.

Lemma renderTimes_warm k fuel i d img n : ∀ w,
  (6 ≤ fuel)%nat → warm i d img w →
  warm i d img (renderTimes k fuel n w)
  ∧ ∀ P, (∀ r, P (ObsRenderMarkings r i) = false)
         → (∀ r o, P (ObsSettled r o) = false)
         → (∀ r, P (ObsPutImageData r) = false)
         → occurrences P (trace (renderTimes k fuel n w)) = occurrences P (trace w).
Proof.
  induction n as [|n IH]; intros w Hfuel Hw; simpl; [done|].
  destruct (warm_request k fuel i d img w Hfuel Hw) as (Hw' & Ht).
  destruct (IH _ Hfuel Hw') as (Hw'' & Hocc). split; [done|].
  intros P HP1 HP2 HP3. rewrite (Hocc P HP1 HP2 HP3), Ht, occurrences_app.
  simpl. rewrite HP1, HP2, HP3. lia.
Qed.

(** C1. From a mounted world with nothing pending and nothing cached
    for the selected file, after any number [n >= 1] of render requests
    made one after the other, each left to run to its end: the audio and
    the image of the file are cached, a further [getAudioData] or
    [getSpectrogramImageData] only hands the stored value to the waiting
    callback (no producer is started, nothing is observed), and the file
    was decoded once, analysed once and rendered once in all. *)
Theorem cache_hit_idempotence (w : World) (k : VoidK) (f : AudioFile)
    (b : AudioBuffer env) (fuel n : nat)
    (Hmounted : lifecycle w = Mounted)
    (Hquiet : quiescent w)
    (Hfile : fileAt (props w) (selectedIndex (state w)) = Some f)
    (Hdecodes : decodeAudioData env (content f) = Some b)
    (Haudio : audioDataCache w !! selectedIndex (state w) = None)
    (Himage : spectrogramImageDataCache w !! selectedIndex (state w) = None)
    (Hwidth : (0 < innerWidth (window w))%N)
    (Hbins : (0 < spectrumBins env (getSpectrumFftData env b (config (state w))))%N)
    (Hfuel : (6 ≤ fuel)%nat)
    (Hn : (1 ≤ n)%nat) :
  let i := selectedIndex (state w) in
  let w' := renderTimes k fuel n w in
  (∀ w0 j d0 k0, audioDataCache w0 !! j = Some d0 →
     getAudioData j k0 w0 = queueMicrotask (JAudio d0 k0) w0)
  ∧ (∀ w0 j img0 k0, spectrogramImageDataCache w0 !! j = Some img0 →
       getSpectrogramImageData j k0 w0 = queueMicrotask (JImage img0 k0) w0)
  ∧ quiescent w'
  ∧ (∃ d, audioDataCache w' !! i = Some d
          ∧ ∀ k', getAudioData i k' w' = queueMicrotask (JAudio d k') w')
  ∧ (∃ img, spectrogramImageDataCache w' !! i = Some img
            ∧ ∀ k', getSpectrogramImageData i k' w'
                    = queueMicrotask (JImage img k') w')
  ∧ occurrences (isDecode i) (trace w') = S (occurrences (isDecode i) (trace w))
  ∧ occurrences (isAnalyze i) (trace w') = S (occurrences (isAnalyze i) (trace w))
  ∧ occurrences (isRenderSpectrogram i) (trace w')
    = S (occurrences (isRenderSpectrogram i) (trace w)).
Proof.
  intros i w'.
  split; [intros w0 j d0 k0 H0; unfold getAudioData; by rewrite H0|].
  split; [intros w0 j img0 k0 H0; unfold getSpectrogramImageData; by rewrite H0|].
  destruct n as [|n]; [lia|]. subst w'. simpl.
  set (d := {| adAudioBuffer := b;
               spectrumFftData := getSpectrumFftData env b (config (state w)) |}).
  destruct (request_cold w k f b Hmounted Hquiet Hfile Hdecodes Haudio Himage
              Hwidth Hbins)
    as ((Hq1 & (Hp & Hs & Hl & _) & _ & Ht) & Ha1 & img & _ & _ & Hi1 & _).
  assert (E : drain fuel (useSelectedAudioFileToRender k w)
              = drain 6 (useSelectedAudioFileToRender k w)).
  { apply drain_enough; [exact Hq1|exact Hfuel]. }
  rewrite E. set (w1 := drain 6 (useSelectedAudioFileToRender k w)) in *.
  assert (Hwarm : warm i d img w1).
  { unfold warm. rewrite Hl, Hs, Hp, Ha1, Hi1, !lookup_insert_eq.
    split_and!; done. }
  destruct (renderTimes_warm k fuel i d img n w1 Hfuel Hwarm)
    as ((_ & Hq & _ & _ & Ha & Him) & Hocc).
  split; [done|]. split; [|split].
  - exists d. split; [done|]. intros k'. unfold getAudioData. by rewrite Ha.
  - exists img. split; [done|]. intros k'. unfold getSpectrogramImageData.
    by rewrite Him.
  - rewrite !Hocc by done. rewrite Ht, !occurrences_app.
    fold i. simpl. rewrite !bool_decide_eq_true_2 by done. lia.
Qed.

(** *** Resize *)

Lemma windowOnResize_caches w :
  spectrogramImageDataCache (windowOnResize w) = ∅
  ∧ audioDataCache (windowOnResize w) = audioDataCache w.
Proof.
  unfold windowOnResize, resizeAndRerenderCanvas. simpl.
  destruct (lifecycle w); simpl; try done.
  by destruct (useSelectedAudioFileToRender_caches KRestyle
                 (set_spectrogramImageDataCache (λ _, ∅) w)) as (-> & ->).
Qed.

(** C2. The resize handler empties the image cache and leaves the audio
    cache as it is. For a mounted world with nothing pending in which
    the selected file was rendered before, the render the handler starts
    renders the image again, once, and neither decodes nor analyses the
    file again; the audio cache is still the same when it ends. *)
Theorem resize_clears_image_cache_only (w : World) (win : Window)
    (f : AudioFile) (d : AudioData) (img : ImageData.t) (fuel : nat)
    (Hmounted : lifecycle w = Mounted)
    (Hquiet : quiescent w)
    (Hfile : fileAt (props w) (selectedIndex (state w)) = Some f)
    (Haudio : audioDataCache w !! selectedIndex (state w) = Some d)
    (Himage : spectrogramImageDataCache w !! selectedIndex (state w) = Some img)
    (Hwidth : (0 < innerWidth win)%N)
    (Hbins : (0 < spectrumBins env (spectrumFftData d))%N)
    (Hfuel : (6 ≤ fuel)%nat) :
  let i := selectedIndex (state w) in
  let w0 := handle (Resize win) w in
  let w' := drain fuel w0 in
  (∀ w1, spectrogramImageDataCache (windowOnResize w1) = ∅
         ∧ audioDataCache (windowOnResize w1) = audioDataCache w1)
  ∧ spectrogramImageDataCache w0 = ∅
  ∧ audioDataCache w0 = audioDataCache w
  ∧ quiescent w'
  ∧ audioDataCache w' = audioDataCache w
  ∧ (∃ img', spectrogramImageDataCache w' = {[ i := img' ]}
             ∧ ImageData.width img' = innerWidth win)
  ∧ occurrences (isRenderSpectrogram i) (trace w')
    = S (occurrences (isRenderSpectrogram i) (trace w))
  ∧ occurrences (isDecode i) (trace w') = occurrences (isDecode i) (trace w)
  ∧ occurrences (isAnalyze i) (trace w') = occurrences (isAnalyze i) (trace w).
Proof.
  intros i w0 w'.
  set (w1 := set_spectrogramImageDataCache (λ _, ∅) (set_window win w)).
  assert (Hw0 : w0 = useSelectedAudioFileToRender KRestyle w1).
  { unfold w0, handle. rewrite Hmounted.
    unfold windowOnResize, resizeAndRerenderCanvas. simpl. by rewrite Hmounted. }
  destruct (request_rerender w1 KRestyle f d)
    as ((Hq & _ & _ & Ht) & Ha & img' & Hiw & _ & Hi & _); try done.
  assert (E : w' = drain 6 (useSelectedAudioFileToRender KRestyle w1)).
  { unfold w'. rewrite Hw0. apply drain_enough; [exact Hq|exact Hfuel]. }
  split; [apply windowOnResize_caches|].
  destruct (useSelectedAudioFileToRender_caches KRestyle w1) as (Ha0 & Hi0).
  rewrite Hw0, Ha0, Hi0, E, Ha, Hi, Ht, !occurrences_app.
  split_and!; try done;
    [ exists img'; split; [|done]; unfold w1; simpl; apply insert_empty
    | simpl; rewrite ?bool_decide_eq_true_2 by done; lia .. ].
Qed.

(** *** Decoding failure *)

(** C3, as the code has it. When decoding the selected file fails, no
    entry is stored in either cache, but the failure does not reach the
    request's promise: that promise never settles. All that is observed
    is the rejection of the decoder's own promise, which nobody handles;
    no renderer runs and the canvas is left as it was. *)
Theorem decode_failure_never_settles (w : World) (k : VoidK) (f : AudioFile)
    (fuel : nat)
    (Hmounted : lifecycle w = Mounted)
    (Hquiet : quiescent w)
    (Hfile : fileAt (props w) (selectedIndex (state w)) = Some f)
    (Hfails : decodeAudioData env (content f) = None)
    (Haudio : audioDataCache w !! selectedIndex (state w) = None)
    (Hfuel : (1 ≤ fuel)%nat) :
  let i := selectedIndex (state w) in
  let w' := drain fuel (useSelectedAudioFileToRender k w) in
  quiescent w'
  ∧ trace w' = trace w ++ [ObsReadFile i; ObsDecode i;
                           ObsUnhandledRejection EncodingError]
  ∧ occurrences (isSettled (nextRequest w)) (trace w')
    = occurrences (isSettled (nextRequest w)) (trace w)
  ∧ audioDataCache w' !! i = None
  ∧ audioDataCache w' = audioDataCache w
  ∧ spectrogramImageDataCache w' = spectrogramImageDataCache w
  ∧ spectrogramCanvas w' = spectrogramCanvas w.
Proof.
  intros i w'.
  destruct (request_decode_failure w k f Hmounted Hquiet Hfile Hfails Haudio)
    as ((Hq & _ & _ & Ht) & Ha & Hi & Hc).
  assert (E : w' = drain 1 (useSelectedAudioFileToRender k w)).
  { apply drain_enough; [exact Hq|exact Hfuel]. }
  rewrite E, Ht, Ha, Hi, Hc, occurrences_app. split_and!; done.
Qed.

(** *** The order of the two renderers *)

(** C5, what the code does. In a render request for a file that can be
    decoded, [renderMarkings] is called, and draws, before the pixels of
    the spectrogram are put on the visible canvas: the put happens in a
    promise job that runs after the renderers callback has returned.
    The put resizes the canvas and covers all of it, so what is visible
    at the end are the spectrogram's pixels alone, whatever the markings
    renderer drew. *)
Theorem markings_drawn_before_pixels (w : World) (k : VoidK) (f : AudioFile)
    (d : AudioData)
    (Hmounted : lifecycle w = Mounted)
    (Hquiet : quiescent w)
    (Hfile : fileAt (props w) (selectedIndex (state w)) = Some f)
    (Hcached :
       audioDataCache w !! selectedIndex (state w) = Some d
       ∨ (audioDataCache w !! selectedIndex (state w) = None
          ∧ spectrogramImageDataCache w !! selectedIndex (state w) = None
          ∧ ∃ b, decodeAudioData env (content f) = Some b
                 ∧ d = {| adAudioBuffer := b;
                          spectrumFftData :=
                            getSpectrumFftData env b (config (state w)) |}))
    (Hwidth : (0 < innerWidth (window w))%N)
    (Hbins : (0 < spectrumBins env (spectrumFftData d))%N) :
  let i := selectedIndex (state w) in
  let r := nextRequest w in
  let w' := drain 6 (useSelectedAudioFileToRender k w) in
  ∃ before between img,
    trace w' = trace w ++ before ++ [ObsRenderMarkings r i] ++ between
                       ++ [ObsPutImageData r]
    ∧ Forall (λ o, o ≠ ObsPutImageData r) (before ++ between)
    ∧ quiescent w'
    ∧ spectrogramImageDataCache w' !! i = Some img
    ∧ ∀ c0, Canvas.bitmap (spectrogramCanvas w')
        = Canvas.bitmap (Canvas.putImageData img
            (Canvas.setHeight (ImageData.height img)
               (Canvas.setWidth (ImageData.width img) c0))).
Proof.
  intros i r w'.
  destruct Hcached as [Ha|(Ha & Hi & b & Hb & ->)].
  - destruct (spectrogramImageDataCache w !! i) as [img|] eqn:Hi.
    + destruct (request_warm w k f d img Hmounted Hquiet Hfile Ha Hi)
        as ((Hq & _ & _ & Ht) & _ & Hi' & Hc).
      exists [], [ObsSettled r Fulfilled], img.
      fold w' in Ht, Hi', Hc, Hq. rewrite Ht, Hi'. split_and!; try done.
      by repeat constructor.
    + destruct (request_rerender w k f d Hmounted Hquiet Hfile Ha Hi Hwidth Hbins)
        as ((Hq & _ & _ & Ht) & _ & img & _ & _ & Hi' & Hc).
      exists [], [ObsSettled r Fulfilled; ObsRenderSpectrogram i], img.
      fold w' in Ht, Hi', Hc, Hq. rewrite Ht, Hi', lookup_insert_eq.
      split_and!; try done. by repeat constructor.
  - destruct (request_cold w k f b Hmounted Hquiet Hfile Hb Ha Hi Hwidth Hbins)
      as ((Hq & _ & _ & Ht) & _ & img & _ & _ & Hi' & Hc).
    exists [ObsReadFile i; ObsDecode i; ObsAnalyze i],
           [ObsSettled r Fulfilled; ObsRenderSpectrogram i], img.
    fold w' in Ht, Hi', Hc, Hq. rewrite Ht, Hi', lookup_insert_eq.
    split_and!; try done. by repeat constructor.
Qed.

(** *** Requests that overlap *)

(** A click on Next makes two render requests at once, one from
    [componentDidUpdate] and one from the callback given to [setState].
    When the file it moves to is not cached yet, both miss the cache
    before either decode is done: the file is read, decoded and analysed
    twice, and the second result is stored over the first (they are the
    same). The image is rendered once. *)
Theorem overlapping_requests_decode_twice (w : World) (f : AudioFile)
    (b : AudioBuffer env)
    (Hmounted : lifecycle w = Mounted)
    (Hquiet : quiescent w)
    (Hfile : fileAt (props w)
               (Z.min (Z.of_nat (length (audioFiles (props w))) - 1)
                      (selectedIndex (state w) + 1)) = Some f)
    (Hdecodes : decodeAudioData env (content f) = Some b)
    (Haudio : audioDataCache w
              !! Z.min (Z.of_nat (length (audioFiles (props w))) - 1)
                       (selectedIndex (state w) + 1) = None)
    (Himage : spectrogramImageDataCache w
              !! Z.min (Z.of_nat (length (audioFiles (props w))) - 1)
                       (selectedIndex (state w) + 1) = None)
    (Hwidth : (0 < innerWidth (window w))%N)
    (Hbins : (0 < spectrumBins env (getSpectrumFftData env b (config (state w))))%N) :
  let i := Z.min (Z.of_nat (length (audioFiles (props w))) - 1)
                 (selectedIndex (state w) + 1) in
  let d := {| adAudioBuffer := b;
              spectrumFftData := getSpectrumFftData env b (config (state w)) |} in
  let r := nextRequest w in
  let w' := drain 10 (handle ClickNext w) in
  quiescent w'
  ∧ selectedIndex (state w') = i
  ∧ trace w' = trace w ++
      [ObsReadFile i; ObsReadFile i; ObsDecode i; ObsDecode i;
       ObsAnalyze i; ObsRenderMarkings r i; ObsSettled r Fulfilled;
       ObsRenderSpectrogram i; ObsPutImageData r;
       ObsAnalyze i; ObsRenderMarkings (S r) i; ObsSettled (S r) Fulfilled;
       ObsPutImageData (S r)]
  ∧ audioDataCache w' = <[i := d]> (audioDataCache w).
Proof.
  intros i d r w'. subst d r w'.
  destruct Hquiet as [Hmi Hma].
  destruct w as [p st l sc ic ac imc win top mi ma nr tr].
  simpl in *. subst. fold i in Hfile, Haudio, Himage.
  edestruct (getImageData_ok (innerWidth win)
               (spectrumBins env (getSpectrumFftData env b (config st))))
    as (img & Himg & Hiw & Hih & _); [exact Hwidth|exact Hbins|].
  world_is ltac:(unfold handle, nextFileButtonOnClick, setState, render,
                   componentDidUpdate, resizeAndRerenderCanvas,
                   useSelectedAudioFileToRender, getAudioData; simpl;
                 fold i; rewrite ?Hfile, ?Haudio; simpl;
                 rewrite ?Hfile, ?Haudio; simpl).
  turn. world_is ltac:(simpl; unfold fileReaderOnLoad; simpl; rewrite Hdecodes).
  turn. world_is ltac:(simpl; unfold fileReaderOnLoad; simpl; rewrite Hdecodes).
  turn. world_is ltac:(simpl; unfold decodeSuccess; simpl).
  turn.
  world_is ltac:(simpl; unfold runRenderers, renderSpectrogramUsingCache,
                   getSpectrogramImageData, getAudioData; simpl;
                 rewrite Himage, lookup_insert_eq; simpl).
  turn. world_is ltac:(simpl; unfold renderImage; simpl; rewrite Himg; simpl).
  turn. world_is ltac:(simpl; unfold restyleCanvas; simpl).
  turn. world_is ltac:(simpl; unfold putSpectrogram; simpl).
  turn. world_is ltac:(simpl; unfold decodeSuccess; simpl).
  turn.
  world_is ltac:(simpl; unfold runRenderers, renderSpectrogramUsingCache,
                   getSpectrogramImageData; simpl;
                 rewrite lookup_insert_eq; simpl).
  turn. world_is ltac:(simpl; unfold putSpectrogram; simpl).
  run_dry. unfold quiescent. simpl. rewrite <- !app_assoc. simpl.
  split_and!; try done. apply insert_insert_eq.
Qed.

End Requests.

(** ** The AudioData cache over a whole session *)

Section AudioCache.
Context {env : Env}.

#[local] Hint Unfold
  getAudioData getSpectrogramImageData
  renderImage putSpectrogram renderSpectrogramUsingCache callRenderMarkings
  runRenderers useSelectedAudioFileToRender restyleCanvas
  resizeAndRerenderCanvas windowOnResize rejectImage rejectAudio fulfilVoid
  queueMicrotask queueMacrotask runJob
  componentDidMount componentDidUpdate crash mount setState render
  previousFileButtonOnClick nextFileButtonOnClick downloadButtonOnClick
  volumeSliderOnChange handle : app.

Ltac audio_frame :=
  unfold audioFrame; repeat autounfold with app; simpl;
  repeat (case_match; simpl in *; try done);
  split_and!; try done; intros;
  rewrite ?Forall_app; split_and?; try done;
  repeat first [ done | congruence | constructor; simpl ].

Lemma runJob_audioFrame j w : audioFrame w (runJob j w).
Proof. destruct j as [d [i k|r cv k]|img [r]|]; audio_frame. Qed.

Lemma handle_audioFrame e w : audioFrame w (handle e w).
Proof. destruct e; audio_frame. Qed.

Lemma audioFrame_sound w w' :
  audioFrame w w' → audioCacheSound w → audioCacheSound w'.
Proof.
  intros (Hp & Hc & Ha & Hm) (Hconfig & Hcache & Htasks).
  unfold audioCacheSound. rewrite Hp, Hc, Ha. auto.
Qed.

Lemma set_macrotasks_sound ts w :
  audioCacheSound w → Forall (taskSound (props w)) ts →
  audioCacheSound (set_macrotasks ts w).
Proof. intros (Hconfig & Hcache & _) Hts. by split_and!. Qed.

Lemma set_microtasks_sound js w :
  audioCacheSound w → audioCacheSound (set_microtasks js w).
Proof. intros (Hconfig & Hcache & Hts). by split_and!. Qed.

(** What a sound [TDecoded] callback stores is what decoding yields. *)
Lemma decoded_is_produced w index buffer k :
  audioCacheSound w →
  taskSound (props w) (TDecoded index buffer k) →
  producedAudio (props w) index
  = Some {| adAudioBuffer := buffer;
            spectrumFftData := getSpectrumFftData env buffer (config (state w)) |}.
Proof.
  intros (Hconfig & _) (file & Hfile & Hdec).
  unfold producedAudio. by rewrite Hfile, Hdec, Hconfig.
Qed.

Lemma runTask_sound t w :
  audioCacheSound w → taskSound (props w) t → audioCacheSound (runTask t w).
Proof.
  intros Hs Ht. pose proof Hs as (Hconfig & Hcache & Htasks).
  destruct t as [index file k|index buffer k].
  - simpl in *. unfold fileReaderOnLoad. simpl.
    destruct (decodeAudioData env (content file)) as [buffer|] eqn:Hdec;
      unfold audioCacheSound; simpl; split_and!; try done.
    apply Forall_app. split; [done|]. repeat constructor. simpl. eauto.
  - pose proof (decoded_is_produced _ _ _ _ Hs Ht) as Hprod.
    unfold runTask, decodeSuccess, audioCacheSound. simpl.
    split_and!; try done.
    intros i d. destruct (decide (index = i)) as [->|Hne].
    + rewrite lookup_insert_eq. by intros [= <-].
    + rewrite lookup_insert_ne by done. apply Hcache.
Qed.

(** A sound cache never changes an entry it holds. *)
Lemma runTask_keeps_entries t w i d :
  audioCacheSound w → taskSound (props w) t →
  audioDataCache w !! i = Some d →
  audioDataCache (runTask t w) !! i = Some d.
Proof.
  intros Hs Ht Hi. pose proof Hs as (Hconfig & Hcache & Htasks).
  destruct t as [index file k|index buffer k].
  - simpl. unfold fileReaderOnLoad. simpl.
    by destruct (decodeAudioData env (content file)).
  - pose proof (decoded_is_produced _ _ _ _ Hs Ht) as Hprod.
    unfold runTask, decodeSuccess. simpl.
    destruct (decide (index = i)) as [->|Hne].
    + rewrite lookup_insert_eq. apply Hcache in Hi. congruence.
    + by rewrite lookup_insert_ne.
Qed.

Lemma step_sound w w' :
  step w w' → audioCacheSound w → audioCacheSound w'.
Proof.
  destruct 1 as [j js w _|t before after w _ Hma|e w _]; intros Hs.
  - eapply audioFrame_sound; [apply runJob_audioFrame|].
    by apply set_microtasks_sound.
  - pose proof Hs as (_ & _ & Htasks). rewrite Hma in Htasks.
    apply Forall_app in Htasks as (Hb & Hta).
    apply Forall_cons_1 in Hta as (Ht & Ha).
    apply runTask_sound; [|done].
    apply set_macrotasks_sound; [done|]. by apply Forall_app.
  - eapply audioFrame_sound; [apply handle_audioFrame|done].
Qed.

Lemma step_keeps_entries w w' i d :
  step w w' → audioCacheSound w →
  audioDataCache w !! i = Some d → audioDataCache w' !! i = Some d.
Proof.
  destruct 1 as [j js w _|t before after w _ Hma|e w _]; intros Hs Hi.
  - destruct (runJob_audioFrame j (set_microtasks js w)) as (_ & _ & -> & _).
    done.
  - pose proof Hs as (_ & _ & Htasks). rewrite Hma in Htasks.
    apply Forall_app in Htasks as (Hb & Hta).
    apply Forall_cons_1 in Hta as (Ht & Ha).
    apply runTask_keeps_entries; [|done|done].
    apply set_macrotasks_sound; [done|]. by apply Forall_app.
  - by destruct (handle_audioFrame e w) as (_ & _ & -> & _).
Qed.

Lemma reachable_sound p w : reachable p w → audioCacheSound w.
Proof.
  apply reachable_ind.
  - intros win top. unfold audioCacheSound. simpl. split_and!; try done.
  - intros w1 w2 _ Hs Hstep. by apply (step_sound w1 w2).
Qed.

(** C8. In a session, once the AudioData cache holds an entry for an
    index, every later world holds the same entry for it: no job, no
    platform callback and no event (selection, resize, volume, mount or
    unmount) removes it or changes what it holds. *)
Theorem audio_cache_entries_persist (p : AppProps) (w w' : World) (i : Z)
    (d : AudioData)
    (Hreach : reachable p w)
    (Hlater : steps w w')
    (Hentry : audioDataCache w !! i = Some d) :
  audioDataCache w' !! i = Some d.
Proof.
  apply reachable_sound in Hreach.
  assert (audioCacheSound w' ∧ audioDataCache w' !! i = Some d) as [_ H]; [|done].
  induction Hlater as [|w1 w2 w3 _ IH Hstep]; [done|].
  destruct (IH Hreach Hentry) as (Hs2 & He2). split.
  - by apply (step_sound w2 w3).
  - by apply (step_keeps_entries w2 w3).
Qed.

End AudioCache.

(** ** The statements at the concrete session *)

Section Concrete.

#[local] Existing Instance demoEnv.

(** Five renders in a row of the first file decode, analyse and render
    it once. *)
Lemma cache_hit_idempotence_demo :
  let w' := renderTimes KRestyle 6 5 demoFresh in
  occurrences (isDecode 0) (trace w') = 1%nat
  ∧ occurrences (isAnalyze 0) (trace w') = 1%nat
  ∧ occurrences (isRenderSpectrogram 0) (trace w') = 1%nat.
Proof.
  destruct (cache_hit_idempotence demoFresh KRestyle
              {| name := "a.wav"; content := [Byte.x52; Byte.x49] |}
              [Byte.x52; Byte.x49] 6 5)
    as (_ & _ & _ & _ & _ & Hd & Ha & Hr);
    [reflexivity | split; reflexivity | reflexivity | reflexivity | reflexivity
    | reflexivity | reflexivity | reflexivity | lia | lia |].
  exact (conj Hd (conj Ha Hr)).
Defined.

(** A resize after the first render renders the image again at the new
    width and decodes nothing. *)
Lemma resize_clears_image_cache_only_demo :
  let w0 := handle (Resize {| innerWidth := 5; innerHeight := 100 |}) demoMounted in
  let w' := drain 6 w0 in
  spectrogramImageDataCache w0 = ∅
  ∧ audioDataCache w0 = audioDataCache demoMounted
  ∧ audioDataCache w' = audioDataCache demoMounted
  ∧ occurrences (isRenderSpectrogram 0) (trace w')
    = S (occurrences (isRenderSpectrogram 0) (trace demoMounted))
  ∧ occurrences (isDecode 0) (trace w')
    = occurrences (isDecode 0) (trace demoMounted).
Proof.
  destruct (resize_clears_image_cache_only demoMounted
              {| innerWidth := 5; innerHeight := 100 |}
              {| name := "a.wav"; content := [Byte.x52; Byte.x49] |}
              (@Build_AudioData demoEnv [Byte.x52; Byte.x49] 2%N)
              {| ImageData.width := 3; ImageData.height := 2;
                 ImageData.data := [7; 7; 7; 7; 7; 7]%N |} 6)
    as (_ & Hi0 & Ha0 & _ & Ha & _ & Hr & Hd & _);
    [vm_compute; reflexivity | split; vm_compute; reflexivity
    | vm_compute; reflexivity | vm_compute; reflexivity
    | vm_compute; reflexivity | reflexivity | reflexivity | lia |].
  exact (conj Hi0 (conj Ha0 (conj Ha (conj Hr Hd)))).
Defined.

(** C3, the claim at a concrete input. The only file is no audio; after
    the component is mounted and the loop has run dry, the render
    request (number 0) has not settled: nothing is left to run, and the
    trace holds the decoder's unhandled rejection and no settlement. *)
Lemma decode_failure_is_not_propagated :
  fileAt corruptProps 0 = Some {| name := "b.wav"; content := [] |}
  ∧ decodeAudioData demoEnv [] = None
  ∧ quiescent corruptMounted
  ∧ trace corruptMounted
    = [ObsReadFile 0; ObsDecode 0; ObsUnhandledRejection EncodingError]
  ∧ occurrences (isSettled 0) (trace corruptMounted) = 0%nat
  ∧ ¬ ∃ e, In (ObsSettled 0 (Rejected e)) (trace corruptMounted).
Proof.
  split_and!; try (vm_compute; reflexivity).
  - split; vm_compute; reflexivity.
  - intros [e He]. vm_compute in He. intuition discriminate.
Qed.

(** A render request for the corrupt file: the loop runs dry and the
    request has not settled. *)
Lemma decode_failure_never_settles_demo :
  let w' := drain 3 (useSelectedAudioFileToRender KRestyle corruptFresh) in
  quiescent w'
  ∧ occurrences (isSettled 0) (trace w') = 0%nat
  ∧ audioDataCache w' !! 0 = None.
Proof.
  destruct (decode_failure_never_settles corruptFresh KRestyle
              {| name := "b.wav"; content := [] |} 3)
    as (Hq & _ & Hs & Ha & _);
    [reflexivity | split; reflexivity | reflexivity | reflexivity
    | reflexivity | lia |].
  exact (conj Hq (conj Hs Ha)).
Defined.

(** C4, the claim at a concrete input. In a window of width 0 the
    render of the first file produces no buffer at all: the image
    callback ends in an unhandled [IndexSizeError], the image cache has
    no entry and nothing is put on the canvas. *)
Lemma zero_width_yields_no_buffer :
  innerWidth (window collapsedMounted) = 0%N
  ∧ quiescent collapsedMounted
  ∧ trace collapsedMounted
    = [ObsReadFile 0; ObsDecode 0; ObsAnalyze 0; ObsRenderMarkings 0 0;
       ObsSettled 0 Fulfilled; ObsRenderSpectrogram 0;
       ObsUnhandledRejection IndexSizeError]
  ∧ spectrogramImageDataCache collapsedMounted !! 0 = None
  ∧ ¬ ∃ img, In (JImage img (KPut 0)) (microtasks collapsedMounted)
             ∨ spectrogramImageDataCache collapsedMounted !! 0 = Some img.
Proof.
  split_and!; try (vm_compute; reflexivity).
  - split; vm_compute; reflexivity.
  - intros [img [H|H]]; vm_compute in H; [done|discriminate].
Qed.

(** The image callback in a window collapsed to width 0. *)
Lemma zero_width_render_fails_demo :
  let w := set_window collapsedWindow demoMounted in
  let w' := renderImage 0 (KPut 7) spectrum256 w in
  trace w' = trace w ++ [ObsRenderSpectrogram 0;
                         ObsUnhandledRejection IndexSizeError]
  ∧ spectrogramImageDataCache w' = spectrogramImageDataCache w
  ∧ microtasks w' = microtasks w.
Proof.
  destruct (zero_width_render_fails 0 (KPut 7) spectrum256
              (set_window collapsedWindow demoMounted))
    as (Ht & Hi & Hm & _); [reflexivity|].
  exact (conj Ht (conj Hi Hm)).
Defined.

(** C5 at the first render of the concrete session: the markings are
    drawn first, the spectrogram's pixels are put on the canvas last. *)
Lemma markings_drawn_before_pixels_demo :
  ∃ before between img,
    trace (drain 6 (useSelectedAudioFileToRender KRestyle demoFresh))
    = trace demoFresh ++ before ++ [ObsRenderMarkings 0 0] ++ between
                      ++ [ObsPutImageData 0]
    ∧ Forall (λ o, o ≠ ObsPutImageData 0) (before ++ between)
    ∧ spectrogramImageDataCache
        (drain 6 (useSelectedAudioFileToRender KRestyle demoFresh)) !! 0
      = Some img.
Proof.
  destruct (markings_drawn_before_pixels demoFresh KRestyle
              {| name := "a.wav"; content := [Byte.x52; Byte.x49] |}
              (@Build_AudioData demoEnv [Byte.x52; Byte.x49] 2%N))
    as (before & between & img & Ht & Hf & _ & Hi & _);
    [reflexivity | split; reflexivity | reflexivity
    | right; split_and!; [reflexivity | reflexivity
                         | exists [Byte.x52; Byte.x49]; split; reflexivity]
    | reflexivity | reflexivity |].
  exists before, between, img. exact (conj Ht (conj Hf Hi)).
Defined.

(** The same run evaluated: every pixel of the visible canvas is the
    spectrogram's 7, none the markings' 9. *)
Example overlay_is_overwritten :
  trace demoMounted
  = [ObsReadFile 0; ObsDecode 0; ObsAnalyze 0; ObsRenderMarkings 0 0;
     ObsSettled 0 Fulfilled; ObsRenderSpectrogram 0; ObsPutImageData 0]
  ∧ Canvas.bitmap (spectrogramCanvas demoMounted) = [7; 7; 7; 7; 7; 7]%N.
Proof. split; vm_compute; reflexivity. Qed.

(** The spec's example: 256 bins at a display width of 800 give a
    buffer of 800 x 256 pixels. *)
Lemma rendered_image_dimensions_800_256 :
  ∃ img,
    spectrogramImageDataCache (renderImage 0 (KPut 0) spectrum256 wideWorld) !! 0
    = Some img
    ∧ ImageData.width img = 800%N
    ∧ ImageData.height img = 256%N
    ∧ ImageData.area img = N.to_nat (800 * 256).
Proof.
  destruct (rendered_image_dimensions 0 (KPut 0) spectrum256 wideWorld)
    as (img & Hc & _ & Hw & Hh & Ha); [reflexivity | reflexivity |].
  exists img. exact (conj Hc (conj Hw (conj Hh Ha))).
Defined.

(** Next, from the first file to a second one not seen before: two
    decodes, one image. *)
Lemma overlapping_requests_decode_twice_demo :
  occurrences (isDecode 1) (trace (drain 10 (handle ClickNext pairMounted)))
  = 2%nat
  ∧ occurrences (isRenderSpectrogram 1)
      (trace (drain 10 (handle ClickNext pairMounted))) = 1%nat.
Proof.
  destruct (overlapping_requests_decode_twice pairMounted
              {| name := "c.wav"; content := [Byte.x46] |} [Byte.x46])
    as (_ & _ & Ht & _);
    [vm_compute; reflexivity | split; vm_compute; reflexivity
    | vm_compute; reflexivity | reflexivity | vm_compute; reflexivity
    | vm_compute; reflexivity | reflexivity | reflexivity |].
  rewrite Ht. split; vm_compute; reflexivity.
Defined.

Lemma demoMounted_reachable : reachable demoProps demoMounted.
Proof.
  exists demoWindow, 20. eapply steps_trans; [|apply drain_steps].
  eapply steps_step; [apply steps_refl|]. by apply (step_event Mount).
Qed.

(** The entry of the first file survives a click on Next and all it
    sets off. *)
Lemma audio_cache_entries_persist_demo :
  audioDataCache (drain 10 (handle ClickNext demoMounted)) !! 0
  = Some (@Build_AudioData demoEnv [Byte.x52; Byte.x49] 2%N).
Proof.
  apply (audio_cache_entries_persist demoProps demoMounted).
  - exact demoMounted_reachable.
  - eapply steps_trans; [|apply drain_steps].
    eapply steps_step; [apply steps_refl|].
    apply (step_event ClickNext). vm_compute. reflexivity.
  - vm_compute. reflexivity.
Defined.

(** With the two files of the concrete session the index is 0 or 1. *)
Lemma selectedIndex_in_range_demo :
  (∀ w, reachable demoProps w → 0 ≤ selectedIndex (state w) ≤ 1)
  ∧ (∀ w, reachable demoProps w → selectedIndex (state w) = 1 →
          selectedIndex (state (handle ClickNext w)) = 1).
Proof.
  destruct (selectedIndex_in_range demoProps) as (_ & Hr & _ & Hn);
    [discriminate|].
  exact (conj Hr Hn).
Defined.

End Concrete.

(** ** The view and the buttons *)

Section Buttons.
Context {env : Env}.
Variable namesNotComputed : Config env → string → list string.

Lemma fileAt_is_Some p i :
  is_Some (fileAt p i) ↔ 0 ≤ i < Z.of_nat (length (audioFiles p)).
Proof.
  unfold fileAt. destruct (i <? 0) eqn:Hneg.
  - apply Z.ltb_lt in Hneg. split; [by intros [? ?]|lia].
  - apply Z.ltb_ge in Hneg. rewrite lookup_lt_is_Some. lia.
Qed.

Lemma handle_isPlaying e w :
  isPlaying (state (handle e w)) = isPlaying (state w).
Proof.
  destruct e; unfold handle; destruct (lifecycle w) eqn:Hl; try done.
  - unfold mount, componentDidMount. destruct (render w); [|done].
    by destruct (resizeAndRerenderCanvas_stable (set_lifecycle Mounted w))
      as (_&->&_).
  - unfold previousFileButtonOnClick.
    edestruct setState_state as (_&->&_); [|done].
    apply useSelectedAudioFileToRender_stable.
  - unfold nextFileButtonOnClick.
    edestruct setState_state as (_&->&_); [|done].
    apply useSelectedAudioFileToRender_stable.
  - unfold volumeSliderOnChange. destruct (negb _); [done|].
    edestruct setState_state as (_&->&_); [|done].
    intros; apply stable_refl.
  - unfold windowOnResize.
    by destruct (resizeAndRerenderCanvas_stable
             (set_spectrogramImageDataCache (λ _, ∅) (set_window win w)))
      as (_&->&_).
Qed.

Lemma reachable_not_playing p w : reachable p w → isPlaying (state w) = false.
Proof.
  revert w. apply (reachable_ind p (λ w, isPlaying (state w) = false)); [done|].
  intros w1 w2 _ IH Hstep.
  destruct Hstep as [j js w1 _|t before after w1 _ _|e w1 _].
  - by destruct (runJob_stable j (set_microtasks js w1)) as (_&->&_).
  - by destruct (runTask_stable t (set_macrotasks (before ++ after) w1))
      as (_&->&_).
  - by rewrite handle_isPlaying.
Qed.


Lemma reachable_volume_in_unit p w :
  reachable p w → inUnitInterval (volume (state w)) = true.
Proof.
  revert w.
  apply (reachable_ind p (λ w, inUnitInterval (volume (state w)) = true));
    [done|].
  intros w1 w2 _ Hin Hs.
  by apply (step_volume w1 w2).
Qed.

(** What the page shows in a session. Download is never disabled
    (nothing ever sets [isPlaying]); Previous is disabled exactly on the
    first file and Next exactly on the last; the position shown runs
    from 1 to the number of files; the name shown is the selected
    file's; the slider's value lies between its [min] 0 and [max] 1. *)
Theorem view_in_session (p : AppProps) (w : World) (v : View)
    (Hreach : reachable p w)
    (Hview : renderView namesNotComputed w = Some v) :
  downloadDisabled v = false
  ∧ (previousDisabled v = true ↔ selectedIndex (state w) = 0)
  ∧ (nextDisabled v = true
     ↔ selectedIndex (state w) = Z.of_nat (length (audioFiles p)) - 1)
  ∧ 1 ≤ shownPosition v ≤ shownTotal v
  ∧ shownTotal v = Z.of_nat (length (audioFiles p))
  ∧ (∃ file, fileAt p (selectedIndex (state w)) = Some file
             ∧ shownFileName v = Some (name file))
  ∧ inUnitInterval (sliderValue v) = true.
Proof.
  pose proof (reachable_props _ _ Hreach) as Hp.
  pose proof (reachable_not_playing _ _ Hreach) as Hplay.
  pose proof (reachable_volume_in_unit _ _ Hreach) as Hvol.
  unfold renderView in Hview. rewrite Hp, Hplay in Hview.
  destruct (fileAt p (selectedIndex (state w))) as [file|] eqn:Hfile; [|done].
  assert (Hin : 0 ≤ selectedIndex (state w) < Z.of_nat (length (audioFiles p))).
  { apply fileAt_is_Some. by rewrite Hfile. }
  injection Hview as <-. simpl. rewrite length_map.
  split_and!; try done; try lia.
  exists file. split; [done|]. unfold fileAt in Hfile.
  destruct (selectedIndex (state w) <? 0); [done|].
  by rewrite list_lookup_fmap, Hfile.
Qed.

Lemma click_keeps_mounted i w :
  lifecycle w = Mounted → is_Some (fileAt (props w) i) →
  lifecycle (setState (withSelectedIndex i)
               (useSelectedAudioFileToRender KDropped) w) = Mounted.
Proof.
  intros Hl [file Hfile]. unfold setState, render. simpl. rewrite Hfile.
  destruct (useSelectedAudioFileToRender_stable KDropped
              (componentDidUpdate (set_state (withSelectedIndex i) w)))
    as (_&_&->&_).
  unfold componentDidUpdate.
  by destruct (resizeAndRerenderCanvas_stable
                 (set_state (withSelectedIndex i) w)) as (_&_&->&_).
Qed.

Lemma drain_stable n w : stable w (drain n w).
Proof.
  revert w. induction n as [|n IH]; intros w; [apply stable_refl|].
  change (drain (S n) w)
    with (match next w with Some w' => drain n w' | None => w end).
  destruct (next w) as [w'|] eqn:Hn; [|apply stable_refl].
  eapply stable_trans; [|apply IH].
  unfold next in Hn. destruct (microtasks w) as [|j js].
  - destruct (macrotasks w) as [|t ts]; [done|]. injection Hn as <-.
    apply (runTask_stable t (set_macrotasks ts w)).
  - injection Hn as <-. apply (runJob_stable j (set_microtasks js w)).
Qed.

(** A click on an enabled button moves by exactly one file: the clamps
    of the two handlers act only where the button is disabled. Next and
    then Previous, whatever ran in between, comes back to the file it
    started from. *)
Theorem enabled_click_moves_one (w : World) (v : View)
    (Hmounted : lifecycle w = Mounted)
    (Hview : renderView namesNotComputed w = Some v) :
  let s := selectedIndex (state w) in
  (nextDisabled v = false →
     selectedIndex (state (handle ClickNext w)) = s + 1
     ∧ lifecycle (handle ClickNext w) = Mounted)
  ∧ (previousDisabled v = false →
       selectedIndex (state (handle ClickPrevious w)) = s - 1
       ∧ lifecycle (handle ClickPrevious w) = Mounted)
  ∧ (nextDisabled v = false → ∀ n,
       selectedIndex
         (state (handle ClickPrevious (drain n (handle ClickNext w)))) = s).
Proof.
  unfold renderView in Hview. cbv zeta in Hview. revert Hview.
  destruct (fileAt (props w) (selectedIndex (state w))) as [file|] eqn:Hfile;
    [|done].
  intros Hview s.
  assert (Hin : 0 ≤ s < Z.of_nat (length (audioFiles (props w)))).
  { apply fileAt_is_Some. unfold s. by rewrite Hfile. }
  injection Hview as <-. cbn [nextDisabled previousDisabled].
  rewrite length_map. fold s.
  assert (Hnext : negb ((s <? Z.of_nat (length (audioFiles (props w))) - 1)
                        && negb (isPlaying (state w))) = false →
                  selectedIndex (state (handle ClickNext w)) = s + 1
                  ∧ lifecycle (handle ClickNext w) = Mounted).
  { intros Hen. apply negb_false_iff, andb_true_iff in Hen as [Hlt _].
    apply Z.ltb_lt in Hlt. unfold handle. rewrite Hmounted.
    unfold nextFileButtonOnClick. fold s.
    replace (Z.min _ _) with (s + 1) by lia. split.
    - edestruct setState_state as (_&->&_); [|done].
      apply useSelectedAudioFileToRender_stable.
    - apply click_keeps_mounted; [done|]. apply fileAt_is_Some. lia. }
  split; [done|]. split.
  - intros Hen. apply negb_false_iff, andb_true_iff in Hen as [Hlt _].
    apply Z.ltb_lt in Hlt. unfold handle. rewrite Hmounted.
    unfold previousFileButtonOnClick. fold s.
    replace (Z.max _ _) with (s - 1) by lia. split.
    + edestruct setState_state as (_&->&_); [|done].
      apply useSelectedAudioFileToRender_stable.
    + apply click_keeps_mounted; [done|]. apply fileAt_is_Some. lia.
  - intros Hen n. destruct (Hnext Hen) as (Hs1 & Hl1).
    destruct (drain_stable n (handle ClickNext w)) as (_ & Hst & Hl & _).
    remember (drain n (handle ClickNext w)) as w1 eqn:Hw1. clear Hw1.
    unfold handle. rewrite Hl, Hl1. unfold previousFileButtonOnClick.
    edestruct setState_state as (_&->&_);
      [apply useSelectedAudioFileToRender_stable|].
    simpl. rewrite Hst, Hs1. lia.
Qed.

End Buttons.

(** ** Files that are there, files that are not *)

Section Lifecycle.
Context {env : Env}.

#[local] Hint Unfold
  getAudioData fileReaderOnLoad decodeSuccess getSpectrogramImageData
  renderImage putSpectrogram renderSpectrogramUsingCache callRenderMarkings
  runRenderers useSelectedAudioFileToRender restyleCanvas
  resizeAndRerenderCanvas windowOnResize rejectImage rejectAudio fulfilVoid
  queueMicrotask queueMacrotask runJob runTask
  componentDidMount componentDidUpdate crash mount setState render
  previousFileButtonOnClick nextFileButtonOnClick downloadButtonOnClick
  volumeSliderOnChange handle : app.

Lemma getImageData_error sw sh c e :
  Canvas.getImageData sw sh c = inl e → e = IndexSizeError.
Proof.
  unfold Canvas.getImageData. destruct (_ || _)%bool; congruence.
Qed.

Ltac session_frame Hsel :=
  unfold fileSelected in *; repeat autounfold with app; simpl;
  repeat (case_match; simpl in *; try done);
  rewrite ?Forall_app; split_and?; try done;
  try (destruct Hsel as [? ?]; [done | congruence]);
  try match goal with
      | H : Canvas.getImageData _ _ _ = inl _ |- _ =>
          apply getImageData_error in H; subst
      end;
  repeat first [ done | congruence | constructor; simpl ].

Lemma runJob_noRejection j w :
  fileSelected w → Forall noRejection (trace w) →
  Forall noRejection (trace (runJob j w)).
Proof.
  intros Hsel Ht. destruct j as [d [i k|r cv k]|img [r]|];
    session_frame Hsel.
Qed.

Lemma runTask_noRejection t w :
  Forall noRejection (trace w) → Forall noRejection (trace (runTask t w)).
Proof.
  intros Ht. destruct t as [i f k|i b k];
    repeat autounfold with app; simpl;
    repeat (case_match; simpl in *; try done);
    rewrite ?Forall_app; split_and?; try done;
    repeat first [ done | constructor; simpl ].
Qed.

Lemma handle_noRejection e w :
  fileSelected w → Forall noRejection (trace w) →
  Forall noRejection (trace (handle e w)).
Proof. intros Hsel Ht. destruct e; session_frame Hsel. Qed.

Lemma handle_fileSelected e w : fileSelected w → fileSelected (handle e w).
Proof.
  intros Hsel. destruct e;
    unfold fileSelected in *; repeat autounfold with app; simpl;
    repeat (case_match; simpl in *; try done); eauto;
    try (intros; congruence);
    try (destruct Hsel as [? ?]; [done | congruence]).
Qed.

Lemma step_session w w' :
  step w w' →
  fileSelected w ∧ Forall noRejection (trace w) →
  fileSelected w' ∧ Forall noRejection (trace w').
Proof.
  destruct 1 as [j js w Hmi|t before after w _ _|e w _]; intros [Hsel Ht].
  - split.
    + unfold fileSelected.
      by destruct (runJob_stable j (set_microtasks js w)) as (-> & -> & -> & _).
    + by apply runJob_noRejection.
  - split.
    + unfold fileSelected.
      by destruct (runTask_stable t (set_macrotasks (before ++ after) w))
        as (-> & -> & -> & _).
    + by apply runTask_noRejection.
  - split; [by apply handle_fileSelected | by apply handle_noRejection].
Qed.

(** While the component is mounted the selected file is there: [render]
    does not throw at line 70 and [useSelectedAudioFileToRender] not at
    line 292. No promise of a render request is ever rejected, and the
    [TypeError] of [readAsArrayBuffer(undefined)] never occurs: every
    index [getAudioData] is called with is an index of the list. *)
Theorem selected_file_exists (p : AppProps) (w : World)
    (Hreach : reachable p w) :
  (lifecycle w = Mounted →
     render w = true ∧ is_Some (fileAt p (selectedIndex (state w))))
  ∧ (∀ r e, ObsSettled r (Rejected e) ∉ trace w)
  ∧ ObsUnhandledRejection TypeError ∉ trace w.
Proof.
  assert (fileSelected w ∧ Forall noRejection (trace w)) as [Hsel Ht].
  { revert w Hreach.
    apply (reachable_ind p (λ w, fileSelected w ∧ Forall noRejection (trace w))).
    - intros win top. split; [done|constructor].
    - intros w1 w2 _ IH Hstep. by apply (step_session w1 w2). }
  rewrite Forall_forall in Ht. split_and!.
  - intros Hl. destruct (Hsel Hl) as [file Hfile].
    rewrite <- (reachable_props _ _ Hreach). unfold render.
    rewrite Hfile. eauto.
  - intros r e Hin. by apply (Ht _ Hin).
  - intros Hin. by apply (Ht _ Hin).
Qed.






(** With no file at all the component never mounts: the first [render]
    throws at line 70. Nothing is ever requested, cached or pending. *)
Theorem empty_list_never_mounts (p : AppProps) (w : World)
    (Hfiles : audioFiles p = [])
    (Hreach : reachable p w) :
  (∀ win top,
     lifecycle (handle Mount (constructor p win top)) = Unmounted
     ∧ trace (handle Mount (constructor p win top)) = [ObsUncaught TypeError])
  ∧ lifecycle w ≠ Mounted
  ∧ quiescent w
  ∧ nextRequest w = 0%nat
  ∧ audioDataCache w = ∅
  ∧ spectrogramImageDataCache w = ∅.
Proof.
  assert (Hno : fileAt p 0 = None) by (unfold fileAt; by rewrite Hfiles).
  split.
  - intros win top. unfold handle, mount, render. simpl. by rewrite Hno.
  - assert (lifecycle w ≠ Mounted ∧ quiescent w ∧ nextRequest w = 0%nat
            ∧ audioDataCache w = ∅ ∧ spectrogramImageDataCache w = ∅
            ∧ props w = p ∧ selectedIndex (state w) = 0)
      as (? & ? & ? & ? & ? & _); [|done].
    revert w Hreach.
    apply (reachable_ind p
             (λ w, lifecycle w ≠ Mounted ∧ quiescent w ∧ nextRequest w = 0%nat
                   ∧ audioDataCache w = ∅ ∧ spectrogramImageDataCache w = ∅
                   ∧ props w = p ∧ selectedIndex (state w) = 0)).
    + intros win top. by split_and!.
    + intros w1 w2 _ (Hl & [Hmi Hma] & Hn & Ha & Hi & Hp & Hs) Hstep.
      destruct Hstep as [j js w1 Hj|t before after w1 _ Ht|e w1 _].
      * congruence.
      * rewrite Hma in Ht. by destruct before.
      * destruct e; unfold handle; destruct (lifecycle w1) eqn:Hl1;
          try done;
          try (unfold quiescent; simpl; split_and!; first [done|congruence]).
        unfold mount, render. rewrite Hp, Hs, Hno. by split_and!.
Qed.

End Lifecycle.

(** ** What the two caches hold *)

Section Caches.
Context {env : Env}.

#[local] Hint Unfold
  getAudioData fileReaderOnLoad decodeSuccess getSpectrogramImageData
  renderImage putSpectrogram renderSpectrogramUsingCache callRenderMarkings
  runRenderers useSelectedAudioFileToRender restyleCanvas
  resizeAndRerenderCanvas windowOnResize rejectImage rejectAudio fulfilVoid
  queueMicrotask queueMacrotask runJob runTask
  componentDidMount componentDidUpdate crash mount setState render
  previousFileButtonOnClick nextFileButtonOnClick downloadButtonOnClick
  volumeSliderOnChange handle : app.

(** The AudioData cached under an index is the decoded audio of the
    file at that index and the spectrum computed from it, never another
    file's; a file that does not decode is never cached. *)
Theorem audio_cache_holds_own_file (p : AppProps) (w : World) (i : Z)
    (Hreach : reachable p w) :
  (∀ d, audioDataCache w !! i = Some d →
     ∃ file, fileAt p i = Some file
             ∧ decodeAudioData env (content file) = Some (adAudioBuffer d)
             ∧ spectrumFftData d
               = getSpectrumFftData env (adAudioBuffer d) (initialConfig p))
  ∧ (∀ file, fileAt p i = Some file →
       decodeAudioData env (content file) = None →
       audioDataCache w !! i = None).
Proof.
  pose proof (reachable_sound _ _ Hreach) as (_ & Hcache & _).
  rewrite (reachable_props _ _ Hreach) in Hcache.
  assert (Hown : ∀ d, audioDataCache w !! i = Some d →
            ∃ file, fileAt p i = Some file
              ∧ decodeAudioData env (content file) = Some (adAudioBuffer d)
              ∧ spectrumFftData d
                = getSpectrumFftData env (adAudioBuffer d) (initialConfig p)).
  { intros d Hd. apply Hcache in Hd. unfold producedAudio in Hd.
    destruct (fileAt p i) as [file|]; [|done].
    destruct (decodeAudioData env (content file)) as [b|] eqn:Hb; [|done].
    injection Hd as <-. by exists file. }
  split; [done|].
  intros file Hfile Hfails.
  destruct (audioDataCache w !! i) as [d|] eqn:Hd; [|done].
  destruct (Hown d eq_refl) as (file' & Hfile' & Hdec & _). congruence.
Qed.

Lemma length_tabulateFrom {A} (f : N → A) start n :
  length (tabulateFrom f start n) = n.
Proof. revert start. induction n as [|n IH]; intros; simpl; [done|]. by rewrite IH. Qed.

Lemma getImageData_wellFormed sw sh c img :
  Canvas.getImageData sw sh c = inr img →
  wellFormedImage img ∧ ImageData.width img = sw ∧ ImageData.height img = sh.
Proof.
  unfold Canvas.getImageData.
  destruct (sw =? 0)%N eqn:E1; [done|]. destruct (sh =? 0)%N eqn:E2; [done|].
  apply N.eqb_neq in E1, E2. simpl. intros [= <-].
  unfold wellFormedImage. simpl. unfold tabulate.
  rewrite length_tabulateFrom. split_and!; try done; lia.
Qed.

Lemma runJob_imageFits j w :
  (∀ i img, spectrogramImageDataCache w !! i = Some img → imageFits w img) →
  ∀ i img, spectrogramImageDataCache (runJob j w) !! i = Some img →
           imageFits (runJob j w) img.
Proof.
  intros Hcache i img.
  assert (Hsame : ∀ img0, imageFits (runJob j w) img0 ↔ imageFits w img0).
  { intros img0. unfold imageFits.
    by destruct (runJob_stable j w) as (_ & _ & -> & -> & _). }
  rewrite Hsame.
  destruct j as [d [idx k|r cv k]|img0 [r]|].
  - simpl. unfold renderImage. simpl.
    destruct (Canvas.getImageData _ _ _) as [e|img0] eqn:Himg; simpl;
      [apply Hcache|].
    apply getImageData_wellFormed in Himg as (Hwf & Hw & _).
    destruct (decide (idx = i)) as [->|Hne].
    + rewrite lookup_insert_eq. intros [= <-]. by split.
    + rewrite lookup_insert_ne by done. apply Hcache.
  - replace (spectrogramImageDataCache (runJob (JAudio d (KRenderers r cv k)) w))
      with (spectrogramImageDataCache w); [apply Hcache|].
    repeat autounfold with app; simpl;
      repeat (case_match; simpl in *; try done); try done.
  - apply Hcache.
  - apply Hcache.
Qed.

Lemma runTask_imageCache t w :
  spectrogramImageDataCache (runTask t w) = spectrogramImageDataCache w.
Proof.
  destruct t; repeat autounfold with app; simpl;
    repeat (case_match; simpl in *; try done); try done.
Qed.

Lemma handle_imageCache e w :
  spectrogramImageDataCache (handle e w) = spectrogramImageDataCache w
  ∨ (spectrogramImageDataCache (handle e w) = ∅ ∧ lifecycle w = Mounted).
Proof.
  destruct e; repeat autounfold with app; simpl;
    repeat (case_match; simpl in *; try done); auto.
Qed.

Lemma handle_window e w :
  window (handle e w) = window w
  ∨ (∃ win, e = Resize win ∧ window (handle e w) = win).
Proof.
  destruct e; repeat autounfold with app; simpl;
    repeat (case_match; simpl in *; try done); eauto.
Qed.

Lemma handle_lifecycle e w :
  lifecycle (handle e w) = lifecycle w
  ∨ (e = Mount ∧ lifecycle w = Constructed ∧ lifecycle (handle e w) ≠ Constructed)
  ∨ lifecycle (handle e w) = Unmounted.
Proof.
  destruct e; repeat autounfold with app; simpl;
    repeat (case_match; simpl in *; try done); auto.
Qed.

Lemma handle_constructed e w :
  lifecycle (handle e w) = Constructed →
  spectrogramImageDataCache (handle e w) = spectrogramImageDataCache w
  ∧ microtasks (handle e w) = microtasks w
  ∧ macrotasks (handle e w) = macrotasks w
  ∧ lifecycle w = Constructed.
Proof.
  destruct e; repeat autounfold with app; simpl;
    repeat (case_match; simpl in *; try done); try done;
    try (intros; congruence); try (intros; by split_and!).
Qed.

Lemma step_imageCacheFits w w' :
  step w w' → imageCacheFits w → imageCacheFits w'.
Proof.
  intros Hstep (Hfresh & Hcache).
  destruct Hstep as [j js w Hmi|t before after w Hmi Hma|e w _].
  - assert (Hl : lifecycle w ≠ Constructed).
    { intros Hl. destruct (Hfresh Hl) as (_ & Hmi' & _). congruence. }
    split.
    + destruct (runJob_stable j (set_microtasks js w)) as (_ & _ & -> & _).
      done.
    + apply (runJob_imageFits j (set_microtasks js w)). exact Hcache.
  - assert (Hl : lifecycle w ≠ Constructed).
    { intros Hl. destruct (Hfresh Hl) as (_ & _ & Hma'). rewrite Hma' in Hma.
      by destruct before. }
    split.
    + destruct (runTask_stable t (set_macrotasks (before ++ after) w))
        as (_ & _ & -> & _). done.
    + intros i img. rewrite runTask_imageCache. simpl. intros Hi.
      destruct (Hcache i img Hi) as (Hwf & Hw). split; [done|].
      by destruct (runTask_stable t (set_macrotasks (before ++ after) w))
        as (_ & _ & -> & -> & _).
  - split.
    + intros Hl. destruct (handle_constructed e w Hl) as (-> & -> & -> & Hl0).
      by apply Hfresh.
    + intros i img Hi.
      destruct (handle_imageCache e w) as [Hsame|[Hempty _]];
        [|by rewrite Hempty in Hi].
      rewrite Hsame in Hi. destruct (Hcache i img Hi) as (Hwf & Hw).
      split; [done|]. intros Hl'.
      destruct (handle_lifecycle e w) as [Hl|[(-> & Hl & _)|Hl]].
      * rewrite Hl in Hl'.
        destruct (handle_window e w) as [->|(win & -> & Hwin)]; [by apply Hw|].
        exfalso. unfold handle in Hsame. rewrite Hl' in Hsame.
        destruct (windowOnResize_caches (set_window win w)) as (Hcleared & _).
        rewrite Hcleared in Hsame. simpl in Hsame. rewrite <- Hsame in Hi.
        done.
      * destruct (Hfresh Hl) as (Hempty & _). by rewrite Hempty in Hi.
      * congruence.
Qed.

Lemma reachable_imageCacheFits p w : reachable p w → imageCacheFits w.
Proof.
  revert w. apply (reachable_ind p imageCacheFits).
  - intros win top. split; [done|]. intros i0 img0. simpl.
    by rewrite lookup_empty.
  - intros w1 w2 _ IH Hstep. by apply (step_imageCacheFits w1 w2).
Qed.

(** While the component is mounted every image in the image cache is
    exactly as wide as the window is now: a resize empties the cache
    before anything else runs, and an image rendered later is rendered
    at the width the window has then. Every cached image has positive
    width and height and holds width * height pixels. *)
Theorem image_cache_fits_window (p : AppProps) (w : World) (i : Z)
    (img : ImageData.t)
    (Hreach : reachable p w)
    (Hentry : spectrogramImageDataCache w !! i = Some img) :
  wellFormedImage img
  ∧ (lifecycle w = Mounted → ImageData.width img = innerWidth (window w)).
Proof.
  destruct (reachable_imageCacheFits p w Hreach) as (_ & Hcache).
  by apply (Hcache i).
Qed.

End Caches.

(** ** The loop runs dry *)

Section Termination.
Context {env : Env}.

#[local] Hint Unfold
  getAudioData fileReaderOnLoad decodeSuccess getSpectrogramImageData
  renderImage putSpectrogram renderSpectrogramUsingCache callRenderMarkings
  runRenderers restyleCanvas rejectImage rejectAudio fulfilVoid
  queueMicrotask queueMacrotask runJob runTask pendingWeight : app.

Lemma total_app {A} (f : A → nat) l1 l2 :
  total f (l1 ++ l2) = (total f l1 + total f l2)%nat.
Proof. induction l1 as [|x l1 IH]; simpl; [done|]. rewrite IH. lia. Qed.

Lemma total_zero {A} (f : A → nat) l :
  (∀ x, 1 ≤ f x)%nat → total f l = 0%nat → l = [].
Proof.
  intros Hf. destruct l as [|x l]; [done|]. simpl.
  pose proof (Hf x). lia.
Qed.

Ltac weigh :=
  repeat autounfold with app; simpl;
  repeat (case_match; simpl in *; try done);
  rewrite ?total_app; simpl; lia.

Lemma runJob_weight j w :
  (pendingWeight (runJob j w) + 1 ≤ pendingWeight w + jobWeight j)%nat.
Proof. destruct j as [d [i k|r cv [|]]|img [r]|]; weigh. Qed.

Lemma runTask_weight t w :
  (pendingWeight (runTask t w) + 1 ≤ pendingWeight w + taskWeight t)%nat.
Proof. destruct t as [i f [j k|r cv [|]]|i b [j k|r cv [|]]]; weigh. Qed.

Lemma next_weight w w' :
  next w = Some w' → (pendingWeight w' < pendingWeight w)%nat.
Proof.
  unfold next. destruct (microtasks w) as [|j js] eqn:Hmi.
  - destruct (macrotasks w) as [|t ts] eqn:Hma; [done|]. intros [= <-].
    pose proof (runTask_weight t (set_macrotasks ts w)) as H.
    unfold pendingWeight at 2 in H. unfold pendingWeight at 2.
    change (microtasks (set_macrotasks ts w)) with (microtasks w) in H.
    change (macrotasks (set_macrotasks ts w)) with ts in H.
    rewrite Hma. rewrite Hmi in *. simpl in *. lia.
  - intros [= <-].
    pose proof (runJob_weight j (set_microtasks js w)) as H.
    unfold pendingWeight at 2 in H. unfold pendingWeight at 2.
    change (microtasks (set_microtasks js w)) with js in H.
    change (macrotasks (set_microtasks js w)) with (macrotasks w) in H.
    rewrite Hmi. simpl in *. lia.
Qed.

Lemma next_None_quiescent w : next w = None → quiescent w.
Proof.
  unfold next, quiescent. destruct (microtasks w); [|done].
  by destruct (macrotasks w).
Qed.

Lemma drain_within n : ∀ w, (pendingWeight w ≤ n)%nat → quiescent (drain n w).
Proof.
  induction n as [|n IH]; intros w Hw.
  - rewrite drain_0. unfold pendingWeight in Hw. split.
    + apply (total_zero jobWeight); [|lia]. by intros [d [|? ? []]| |]; simpl; lia.
    + apply (total_zero taskWeight); [|lia].
      by intros [? ? [|? ? []]|? ? [|? ? []]]; simpl; lia.
  - destruct (next w) as [w'|] eqn:Hn.
    + rewrite (drain_step _ _ _ Hn). apply IH.
      pose proof (next_weight _ _ Hn). lia.
    + rewrite drain_quiescent; by apply next_None_quiescent.
Qed.

(** Left alone the loop runs dry: in any world, whatever is pending has
    run to its end after a number of turns bounded by what is pending
    (at most 8 turns for a file read that is under way). No render
    request keeps itself going. *)
Theorem loop_runs_dry (w : World) :
  quiescent (drain (pendingWeight w) w)
  ∧ (pendingWeight w
     ≤ 7 * length (microtasks w) + 8 * length (macrotasks w))%nat.
Proof.
  split; [by apply drain_within|].
  unfold pendingWeight.
  assert (H1 : ∀ l, (total jobWeight l ≤ 7 * length l)%nat).
  { induction l as [|[d [|? ? []]|? ?|] l IH]; simpl in *; lia. }
  assert (H2 : ∀ l, (total taskWeight l ≤ 8 * length l)%nat).
  { induction l as [|[? ? [|? ? []]|? ? [|? ? []]] l IH]; simpl in *; lia. }
  specialize (H1 (microtasks w)). specialize (H2 (macrotasks w)). lia.
Qed.

End Termination.

(** ** What is on the canvas *)

Section Display.
Context {env : Env}.

Lemma lookup_tabulateFrom {A} (f : N → A) n : ∀ start k,
  (k < n)%nat →
  tabulateFrom f start n !! k = Some (f (start + N.of_nat k)%N).
Proof.
  induction n as [|n IH]; intros start k Hk; [lia|].
  destruct k as [|k]; simpl.
  - by rewrite N.add_0_r.
  - rewrite IH by lia. f_equal. f_equal. lia.
Qed.

(** Putting a well formed image on a canvas resized to the image's size
    leaves exactly the image's pixels on it. *)
Lemma put_shows_image img c :
  wellFormedImage img →
  Canvas.bitmap
    (Canvas.putImageData img
       (Canvas.setHeight (ImageData.height img)
          (Canvas.setWidth (ImageData.width img) c)))
  = ImageData.data img.
Proof.
  intros (Hw & Hh & Hlen).
  unfold Canvas.putImageData, Canvas.setBitmap, Canvas.setHeight,
    Canvas.setWidth. simpl. unfold tabulate.
  set (wd := ImageData.width img) in *. set (ht := ImageData.height img) in *.
  apply (list_eq_same_length _ _ (N.to_nat (wd * ht)));
    [done | apply length_tabulateFrom |].
  intros k x y Hk Hx Hy.
  rewrite lookup_tabulateFrom in Hx by done. injection Hx as <-.
  rewrite N.add_0_l.
  assert (Hmod : (N.of_nat k mod wd < wd)%N) by (apply N.mod_lt; lia).
  assert (Hdiv : (N.of_nat k / wd < ht)%N)
    by (apply N.Div0.div_lt_upper_bound; lia).
  apply N.ltb_lt in Hmod as Hmod', Hdiv as Hdiv'. rewrite Hmod', Hdiv'. simpl.
  unfold ImageData.pixelAt. fold wd.
  replace (N.to_nat (N.of_nat k / wd * wd + N.of_nat k mod wd)) with k.
  - by apply nth_lookup_Some with (d := transparentBlack) in Hy.
  - pose proof (N.div_mod (N.of_nat k) wd) as Hdm. lia.
Qed.


(** A change of the volume to a finite value stores the clamped value
    and, through [componentDidUpdate], draws the selected file again.
    When the file's audio and image are cached, nothing is read,
    decoded, analysed or rendered for it: the markings renderer is
    called and the cached image is put on the canvas, which then shows
    exactly that image, as wide as the window. *)
Theorem volume_change_redraws_from_cache (p : AppProps) (w : World)
    (value : string) (f : AudioFile) (d : AudioData) (img : ImageData.t)
    (Hreach : reachable p w)
    (Hmounted : lifecycle w = Mounted)
    (Hquiet : quiescent w)
    (Hfile : fileAt (props w) (selectedIndex (state w)) = Some f)
    (Haudio : audioDataCache w !! selectedIndex (state w) = Some d)
    (Himage : spectrogramImageDataCache w !! selectedIndex (state w) = Some img)
    (Hfinite : isFinite (toNumber env value) = true) :
  let i := selectedIndex (state w) in
  let r := nextRequest w in
  let w' := drain 3 (handle (VolumeChange value) w) in
  quiescent w'
  ∧ volume (state w') = mathMax jsZero (mathMin (toNumber env value) jsOne)
  ∧ selectedIndex (state w') = i
  ∧ trace w' = trace w ++
      [ObsRenderMarkings r i; ObsSettled r Fulfilled; ObsPutImageData r]
  ∧ audioDataCache w' = audioDataCache w
  ∧ spectrogramImageDataCache w' = spectrogramImageDataCache w
  ∧ Canvas.width (spectrogramCanvas w') = innerWidth (window w)
  ∧ Canvas.bitmap (spectrogramCanvas w') = ImageData.data img.
Proof.
  intros i r w'. subst i r w'.
  destruct (reachable_imageCacheFits p w Hreach) as (_ & Hfits).
  destruct (Hfits _ _ Himage) as (Hformed & Hiw). specialize (Hiw Hmounted).
  clear Hreach Hfits.
  destruct Hquiet as [Hmi Hma].
  destruct w as [p0 st l sc ic ac imc win top mi ma nr tr].
  simpl in Hmounted, Hmi, Hma, Hfile, Haudio, Himage, Hiw. subst.
  cbn [props state selectedIndex nextRequest trace audioDataCache
       spectrogramImageDataCache window].
  world_is ltac:(unfold handle, volumeSliderOnChange; simpl;
                 rewrite Hfinite; simpl;
                 unfold setState, render, componentDidUpdate,
                   resizeAndRerenderCanvas,
                   useSelectedAudioFileToRender, getAudioData; simpl;
                 rewrite ?Hfile, ?Haudio; simpl;
                 rewrite ?Hfile, ?Haudio; simpl).
  turn.
  world_is ltac:(simpl; unfold runRenderers, renderSpectrogramUsingCache,
                   getSpectrogramImageData; simpl;
                 rewrite Himage; simpl).
  turn. world_is ltac:(simpl; unfold putSpectrogram; simpl).
  turn. world_is ltac:(simpl; unfold restyleCanvas; simpl).
  run_dry. unfold quiescent. simpl. rewrite <- !app_assoc. simpl.
  split_and!; try done.
  rewrite ?bitmap_setStylePosition, ?bitmap_setStyleHeight,
    ?bitmap_setStylePosition.
  by apply put_shows_image.
Qed.

End Display.

(** ** Requests that overlap an event *)

Section Races.
Context {env : Env}.

(** The component is unmounted while the first read of a file is under
    way. The read, the decode and the analysis still complete and the
    result is cached; [renderSpectrogramUsingCache] then finds no canvas
    and does nothing, so no image is rendered or cached, but
    [renderMarkings] is still called with the context taken when the
    request was made, and the request's promise is fulfilled. *)
Theorem request_outlives_unmount (w : World) (k : VoidK) (f : AudioFile)
    (b : AudioBuffer env)
    (Hmounted : lifecycle w = Mounted)
    (Hquiet : quiescent w)
    (Hfile : fileAt (props w) (selectedIndex (state w)) = Some f)
    (Hdecodes : decodeAudioData env (content f) = Some b)
    (Haudio : audioDataCache w !! selectedIndex (state w) = None) :
  let i := selectedIndex (state w) in
  let r := nextRequest w in
  let d := {| adAudioBuffer := b;
              spectrumFftData := getSpectrumFftData env b (config (state w)) |} in
  let w' := drain 4 (handle Unmount (useSelectedAudioFileToRender k w)) in
  quiescent w'
  ∧ lifecycle w' = Unmounted
  ∧ trace w' = trace w ++
      [ObsReadFile i; ObsDecode i; ObsAnalyze i;
       ObsRenderMarkings r i; ObsSettled r Fulfilled]
  ∧ audioDataCache w' = <[i := d]> (audioDataCache w)
  ∧ spectrogramImageDataCache w' = spectrogramImageDataCache w
  ∧ internalCanvas w' = internalCanvas w
  ∧ Canvas.bitmap (spectrogramCanvas w')
    = Canvas.bitmap
        (renderMarkings env
           {| fileIndex := i; ctx := SpectrogramSurface; audioBuffer := b;
              snatcitConfig := config (state w) |}
           (computedValuesOf env (config (state w)) (name f))
           (spectrogramCanvas w)).
Proof.
  intros i r d w'. subst i r d w'.
  destruct Hquiet as [Hmi Hma].
  destruct w as [p st l sc ic ac imc win top mi ma nr tr].
  simpl in *. subst.
  world_is ltac:(unfold useSelectedAudioFileToRender, getAudioData; simpl;
                 rewrite Hfile, Haudio; unfold handle; simpl).
  turn. world_is ltac:(simpl; unfold fileReaderOnLoad; simpl; rewrite Hdecodes).
  turn. world_is ltac:(simpl; unfold decodeSuccess; simpl).
  turn.
  world_is ltac:(simpl; unfold runRenderers, renderSpectrogramUsingCache; simpl).
  destruct k.
  - world_is ltac:(simpl).
    turn. world_is ltac:(simpl; unfold restyleCanvas; simpl).
    run_dry. unfold quiescent. simpl. rewrite <- !app_assoc. simpl.
    split_and!; try done.
  - world_is ltac:(simpl).
    run_dry. unfold quiescent. simpl. rewrite <- !app_assoc. simpl.
    split_and!; try done.
Qed.

(** A click on Previous or Next that leads to a file whose audio and
    image are both cached reads, decodes, analyses and renders nothing:
    each of the click's two requests calls the markings renderer and
    puts the cached image, and the canvas ends up with the size and
    the pixels of that image. This includes a click that stays on the
    first or the last file. *)
Theorem navigation_to_cached_file (w : World) (forward : bool) (f : AudioFile)
    (d : AudioData) (img : ImageData.t)
    (Hmounted : lifecycle w = Mounted)
    (Hquiet : quiescent w)
    (Hfile : fileAt (props w)
               (if forward
                then Z.min (Z.of_nat (length (audioFiles (props w))) - 1)
                           (selectedIndex (state w) + 1)
                else Z.max 0 (selectedIndex (state w) - 1)) = Some f)
    (Haudio : audioDataCache w
              !! (if forward
                  then Z.min (Z.of_nat (length (audioFiles (props w))) - 1)
                             (selectedIndex (state w) + 1)
                  else Z.max 0 (selectedIndex (state w) - 1)) = Some d)
    (Himage : spectrogramImageDataCache w
              !! (if forward
                  then Z.min (Z.of_nat (length (audioFiles (props w))) - 1)
                             (selectedIndex (state w) + 1)
                  else Z.max 0 (selectedIndex (state w) - 1)) = Some img)
    (Hformed : wellFormedImage img) :
  let j := if forward
           then Z.min (Z.of_nat (length (audioFiles (props w))) - 1)
                      (selectedIndex (state w) + 1)
           else Z.max 0 (selectedIndex (state w) - 1) in
  let r := nextRequest w in
  let w' := drain 5 (handle (if forward then ClickNext else ClickPrevious) w) in
  quiescent w'
  ∧ selectedIndex (state w') = j
  ∧ trace w' = trace w ++
      [ObsRenderMarkings r j; ObsSettled r Fulfilled;
       ObsRenderMarkings (S r) j; ObsSettled (S r) Fulfilled;
       ObsPutImageData r; ObsPutImageData (S r)]
  ∧ audioDataCache w' = audioDataCache w
  ∧ spectrogramImageDataCache w' = spectrogramImageDataCache w
  ∧ Canvas.width (spectrogramCanvas w') = ImageData.width img
  ∧ Canvas.height (spectrogramCanvas w') = ImageData.height img
  ∧ Canvas.bitmap (spectrogramCanvas w') = ImageData.data img.
Proof.
  intros j r w'. subst r w'.
  destruct Hquiet as [Hmi Hma].
  destruct w as [p st l sc ic ac imc win top mi ma nr tr].
  simpl in *. subst. fold j in Hfile, Haudio, Himage.
  assert (Hhandle :
    handle (if forward then ClickNext else ClickPrevious)
      {| props := p; state := st; lifecycle := Mounted;
         spectrogramCanvas := sc; internalCanvas := ic;
         audioDataCache := ac; spectrogramImageDataCache := imc;
         window := win; canvasTop := top; microtasks := []; macrotasks := [];
         nextRequest := nr; trace := tr |}
    = setState (withSelectedIndex j) (useSelectedAudioFileToRender KDropped)
        {| props := p; state := st; lifecycle := Mounted;
           spectrogramCanvas := sc; internalCanvas := ic;
           audioDataCache := ac; spectrogramImageDataCache := imc;
           window := win; canvasTop := top; microtasks := []; macrotasks := [];
           nextRequest := nr; trace := tr |}) by (by destruct forward).
  rewrite Hhandle. clear Hhandle.
  world_is ltac:(unfold setState, render,
                   componentDidUpdate, resizeAndRerenderCanvas,
                   useSelectedAudioFileToRender, getAudioData; simpl;
                 rewrite ?Hfile, ?Haudio; simpl;
                 rewrite ?Hfile, ?Haudio; simpl).
  turn.
  world_is ltac:(simpl; unfold runRenderers, renderSpectrogramUsingCache,
                   getSpectrogramImageData; simpl;
                 rewrite Himage; simpl).
  turn.
  world_is ltac:(simpl; unfold runRenderers, renderSpectrogramUsingCache,
                   getSpectrogramImageData; simpl;
                 rewrite Himage; simpl).
  turn. world_is ltac:(simpl; unfold putSpectrogram; simpl).
  turn. world_is ltac:(simpl; unfold restyleCanvas; simpl).
  turn. world_is ltac:(simpl; unfold putSpectrogram; simpl).
  run_dry. unfold quiescent. simpl. rewrite <- !app_assoc. simpl.
  split_and!; try done. by apply put_shows_image.
Qed.


End Races.

(** ** The concrete session, continued *)

Section ConcreteSession.

#[local] Existing Instance demoEnv.

(** The page of the concrete session after the mount. *)
Lemma view_in_session_demo :
  renderView demoNotComputed demoMounted = Some demoView
  ∧ downloadDisabled demoView = false
  ∧ 1 ≤ shownPosition demoView ≤ shownTotal demoView
  ∧ inUnitInterval (sliderValue demoView) = true.
Proof.
  assert (Hview : renderView demoNotComputed demoMounted = Some demoView)
    by (vm_compute; reflexivity).
  destruct (view_in_session (env:=demoEnv) demoNotComputed demoProps demoMounted demoView
              demoMounted_reachable Hview)
    as (Hd & _ & _ & Hp & _ & _ & Hs).
  exact (conj Hview (conj Hd (conj Hp Hs))).
Defined.

(** Next from the first of two files, and back. *)
Lemma enabled_click_moves_one_demo :
  selectedIndex (state (handle ClickNext pairMounted)) = 1
  ∧ ∀ n, selectedIndex
           (state (handle ClickPrevious (drain n (handle ClickNext pairMounted))))
         = 0.
Proof.
  destruct (enabled_click_moves_one (env:=demoEnv) demoNotComputed pairMounted demoView)
    as (Hn & _ & Hb);
    [vm_compute; reflexivity | vm_compute; reflexivity |].
  split; [apply Hn | apply Hb]; reflexivity.
Defined.

(** The selected file of the concrete session is there. *)
Lemma selected_file_exists_demo :
  render demoMounted = true
  ∧ ObsUnhandledRejection TypeError ∉ trace demoMounted.
Proof.
  destruct (selected_file_exists demoProps demoMounted demoMounted_reachable)
    as (Hr & _ & Ht).
  split; [apply Hr; vm_compute; reflexivity | exact Ht].
Defined.


(** A mount with no files, and a click after it. *)
Lemma empty_list_never_mounts_demo :
  let w := handle ClickNext (handle Mount (constructor emptyProps demoWindow 20)) in
  lifecycle w = Unmounted ∧ trace w = [ObsUncaught TypeError]
  ∧ nextRequest w = 0%nat.
Proof.
  destruct (empty_list_never_mounts emptyProps
              (handle ClickNext
                 (handle Mount (constructor emptyProps demoWindow 20))))
    as (_ & _ & _ & Hr & _).
  - reflexivity.
  - exists demoWindow, 20.
    eapply steps_step; [eapply steps_step; [apply steps_refl|]|].
    + by apply (step_event Mount).
    + by apply (step_event ClickNext).
  - split_and!; [vm_compute; reflexivity | vm_compute; reflexivity | exact Hr].
Defined.

(** The first file is cached as itself; the second, which is no audio,
    is not cached even after it was selected. *)
Lemma audio_cache_holds_own_file_demo :
  (∃ file, fileAt demoProps 0 = Some file
           ∧ decodeAudioData demoEnv (content file) = Some [Byte.x52; Byte.x49])
  ∧ audioDataCache (drain 10 (handle ClickNext demoMounted)) !! 1 = None.
Proof.
  split.
  - destruct (audio_cache_holds_own_file demoProps demoMounted 0
                demoMounted_reachable) as (Hc & _).
    destruct (Hc demoAudio) as (file & Hf & Hd & _); [vm_compute; reflexivity|].
    by exists file.
  - destruct (audio_cache_holds_own_file demoProps
                (drain 10 (handle ClickNext demoMounted)) 1) as (_ & Hn).
    + exists demoWindow, 20.
      eapply steps_trans; [|apply drain_steps].
      eapply steps_step.
      * eapply steps_trans; [|apply drain_steps].
        eapply steps_step; [apply steps_refl|]. by apply (step_event Mount).
      * apply (step_event ClickNext). vm_compute. reflexivity.
    + apply (Hn {| name := "b.wav"; content := [] |}); reflexivity.
Defined.

(** The cached image of the first file is 3 wide, as the window is. *)
Lemma image_cache_fits_window_demo :
  spectrogramImageDataCache demoMounted !! 0 = Some demoImage
  ∧ wellFormedImage demoImage
  ∧ ImageData.width demoImage = innerWidth (window demoMounted).
Proof.
  assert (Hentry : spectrogramImageDataCache demoMounted !! 0 = Some demoImage)
    by (vm_compute; reflexivity).
  destruct (image_cache_fits_window demoProps demoMounted 0 demoImage
              demoMounted_reachable Hentry) as (Hf & Hw).
  split_and!; [exact Hentry | exact Hf | apply Hw; vm_compute; reflexivity].
Defined.


(** The slider moved to 0.5 once the first file is drawn. *)
Lemma volume_change_redraws_from_cache_demo :
  let w' := drain 3 (handle (VolumeChange "0.5") demoMounted) in
  volume (state w') = mathMax jsZero (mathMin jsHalf jsOne)
  ∧ trace w' = trace demoMounted ++
      [ObsRenderMarkings 1 0; ObsSettled 1 Fulfilled; ObsPutImageData 1]
  ∧ Canvas.bitmap (spectrogramCanvas w') = [7; 7; 7; 7; 7; 7]%N.
Proof.
  destruct (volume_change_redraws_from_cache demoProps demoMounted "0.5"
              {| name := "a.wav"; content := [Byte.x52; Byte.x49] |}
              demoAudio demoImage demoMounted_reachable)
    as (_ & Hv & _ & Ht & _ & _ & _ & Hb);
    [vm_compute; reflexivity | split; vm_compute; reflexivity
    | vm_compute; reflexivity | vm_compute; reflexivity
    | vm_compute; reflexivity | reflexivity |].
  exact (conj Hv (conj Ht Hb)).
Defined.

(** The first request of the session, unmounted before the read is done. *)
Lemma request_outlives_unmount_demo :
  let w' := drain 4 (handle Unmount
                       (useSelectedAudioFileToRender KRestyle demoFresh)) in
  trace w' = [ObsReadFile 0; ObsDecode 0; ObsAnalyze 0;
              ObsRenderMarkings 0 0; ObsSettled 0 Fulfilled]
  ∧ audioDataCache w' = <[0 := demoAudio]> ∅
  ∧ spectrogramImageDataCache w' = ∅.
Proof.
  destruct (request_outlives_unmount demoFresh KRestyle
              {| name := "a.wav"; content := [Byte.x52; Byte.x49] |}
              [Byte.x52; Byte.x49])
    as (_ & _ & Ht & Ha & Hi & _);
    [reflexivity | split; reflexivity | reflexivity | reflexivity
    | reflexivity |].
  exact (conj Ht (conj Ha Hi)).
Defined.

(** Back to the first file once both were drawn. *)
Lemma navigation_to_cached_file_demo :
  let w' := drain 5 (handle ClickPrevious pairBoth) in
  selectedIndex (state w') = 0
  ∧ trace w' = trace pairBoth ++
      [ObsRenderMarkings 3 0; ObsSettled 3 Fulfilled;
       ObsRenderMarkings 4 0; ObsSettled 4 Fulfilled;
       ObsPutImageData 3; ObsPutImageData 4]
  ∧ Canvas.bitmap (spectrogramCanvas w') = [7; 7; 7; 7; 7; 7]%N.
Proof.
  destruct (navigation_to_cached_file pairBoth false
              {| name := "a.wav"; content := [Byte.x52; Byte.x49] |}
              demoAudio demoImage)
    as (_ & Hs & Ht & _ & _ & _ & _ & Hb);
    [vm_compute; reflexivity | split; vm_compute; reflexivity
    | vm_compute; reflexivity | vm_compute; reflexivity
    | vm_compute; reflexivity
    | split_and!; reflexivity |].
  split_and!; [exact Hs | exact Ht | exact Hb].
Defined.


End ConcreteSession.
